(** * go-cronjob: the cron expression parser and the scheduler

    A shallow embedding of [cronexpression.go] (the six-field parser) and of
    the scheduler ([AddJob], [RemoveJob], [nextRunTime], [timeUntilNextJob],
    [isTimeMatching]), followed by the properties proved about them.

    Conventions.
    - A Go [string] is a sequence of bytes: [string] of 8-bit [ascii].
    - A Go [int] is a [Z]; [strconv.Atoi] only yields values of the 64-bit
      range, and every value the parser keeps lies between the bounds of its
      field, so none of the sums and differences below can wrap.
    - A Go [map[string]int] is a [gmap string Z]; the [nil] map is [∅].
    - A function returning [(T, error)] returns a [result T]. *)

From Equations Require Import Equations.
From stdpp Require Import gmap strings list.
From Stdlib Require Import ZArith Ascii String Lia DecimalString.

#[local] Open Scope string_scope.
#[local] Open Scope Z_scope.

(** ** Errors and results *)

(** One constructor per [fmt.Errorf] of the package, carrying the value the
    message is formatted with. *)
Inductive error : Type :=
| ErrFieldCount (got : nat)
| ErrInvalidValue (part : string)
| ErrOutOfRange (num : Z)
| ErrInvalidStepField (field : string)
| ErrInvalidStep (step : string)
| ErrInvalidRange (part : string)
| ErrInvalidRangeStart (start : string)
| ErrInvalidRangeEnd (stop : string)
| ErrIndexOutOfRange.

Inductive result (A : Type) : Type :=
| Ok (a : A)
| Err (e : error).
Arguments Ok {A} a.
Arguments Err {A} e.

Definition isOk {A} (r : result A) : bool :=
  match r with Ok _ => true | Err _ => false end.

(** ** The string functions of the Go library the parser calls *)

Module strings.

(** [strings.Contains(s, sep)] for a separator of one byte. *)
Fixpoint Contains (s : string) (sep : ascii) : bool :=
  match s with
  | EmptyString => false
  | String c r => Ascii.eqb c sep || Contains r sep
  end.

(** [strings.Count(s, sep)] for a separator of one byte. *)
Fixpoint Count (s : string) (sep : ascii) : nat :=
  match s with
  | EmptyString => 0%nat
  | String c r => ((if Ascii.eqb c sep then 1 else 0) + Count r sep)%nat
  end.

(** [strings.Split(s, sep)] for a separator of one byte: the pieces between
    the occurrences of [sep], one more than there are occurrences. *)
Fixpoint Split (s : string) (sep : ascii) : list string :=
  match s with
  | EmptyString => [EmptyString]
  | String c r =>
      if Ascii.eqb c sep then EmptyString :: Split r sep
      else match Split r sep with
           | [] => [String c EmptyString]
           | p :: ps => String c p :: ps
           end
  end.

Definition byteIn (c : ascii) (lo hi : N) : bool :=
  (lo <=? N_of_ascii c)%N && (N_of_ascii c <=? hi)%N.

Definition byteIs (c : ascii) (b : N) : bool := (N_of_ascii c =? b)%N.

(** The width in bytes of the white space rune ([unicode.IsSpace]) whose
    UTF-8 encoding starts [s], and [0] when [s] starts otherwise:
    U+0009..U+000D and U+0020; U+0085 and U+00A0; U+1680, U+2000..U+200A,
    U+2028, U+2029, U+202F, U+205F and U+3000. *)
Definition spaceWidth (s : string) : nat :=
  match s with
  | EmptyString => 0%nat
  | String c1 r1 =>
      if byteIn c1 9 13 || byteIs c1 32 then 1%nat
      else match r1 with
      | EmptyString => 0%nat
      | String c2 r2 =>
          if byteIs c1 194 && (byteIs c2 133 || byteIs c2 160) then 2%nat
          else match r2 with
          | EmptyString => 0%nat
          | String c3 _ =>
              if byteIs c1 225 && byteIs c2 154 && byteIs c3 128 then 3%nat
              else if byteIs c1 226 && byteIs c2 128
                      && (byteIn c3 128 138 || byteIs c3 168
                          || byteIs c3 169 || byteIs c3 175) then 3%nat
              else if byteIs c1 226 && byteIs c2 129 && byteIs c3 159 then 3%nat
              else if byteIs c1 227 && byteIs c2 128 && byteIs c3 128 then 3%nat
              else 0%nat
          end
      end
  end.

(** The scan of [strings.Fields]: [skip] counts the bytes still to drop of
    the white space rune being read, [cur] is the field read so far. *)
Fixpoint fieldsFrom (s : string) (skip : nat) (cur : string) : list string :=
  match s with
  | EmptyString => if String.eqb cur "" then [] else [cur]
  | String c r =>
      match skip with
      | S k => fieldsFrom r k cur
      | O =>
          match spaceWidth s with
          | O => fieldsFrom r 0 (cur ++ String c "")
          | S k => if String.eqb cur "" then fieldsFrom r k ""
                   else cur :: fieldsFrom r k ""
          end
      end
  end.

(** [strings.Fields(s)]: the maximal runs of [s] without white space. *)
Definition Fields (s : string) : list string := fieldsFrom s 0 "".

End strings.

(** ** [strconv.Atoi] *)

Module strconv.

Definition digit (c : ascii) : option Z :=
  if strings.byteIn c 48 57 then Some (Z.of_N (N_of_ascii c) - 48) else None.

(** The value of a run of decimal digits, most significant first. *)
Fixpoint digits (s : string) (acc : Z) : option Z :=
  match s with
  | EmptyString => Some acc
  | String c r =>
      match digit c with
      | Some d => digits r (10 * acc + d)
      | None => None
      end
  end.

Definition minInt : Z := - 2 ^ 63.
Definition maxInt : Z := 2 ^ 63 - 1.

(** [strconv.Atoi(s)]: an optional sign, then one decimal digit or more, of
    a value that fits an [int]; [None] stands for its error. *)
Definition Atoi (s : string) : option Z :=
  let '(neg, body) :=
    match s with
    | String "-" r => (true, r)
    | String "+" r => (false, r)
    | _ => (false, s)
    end in
  match body with
  | EmptyString => None
  | _ =>
      match digits body 0 with
      | None => None
      | Some n =>
          let v := if neg then - n else n in
          if (minInt <=? v) && (v <=? maxInt) then Some v else None
      end
  end.

End strconv.

(** ** Case conversion

    [parseValue] looks a token up after [strings.ToLower] and the title
    caser of [golang.org/x/text/cases] for the undetermined language. Both
    belong to Go libraries and work on Unicode text; the parser is defined
    over any pair of such functions, and [asciiCase] below gives what they
    compute on ASCII text. *)
Class CaseConv : Type := {
  ToLower : string -> string;
  Title : string -> string
}.

Definition isUpper (c : ascii) : bool := strings.byteIn c 65 90.
Definition isLower (c : ascii) : bool := strings.byteIn c 97 122.
Definition isLetter (c : ascii) : bool := isUpper c || isLower c.

Definition lowerByte (c : ascii) : ascii :=
  if isUpper c then ascii_of_N (N_of_ascii c + 32) else c.
Definition upperByte (c : ascii) : ascii :=
  if isLower c then ascii_of_N (N_of_ascii c - 32) else c.

Fixpoint asciiToLower (s : string) : string :=
  match s with
  | EmptyString => EmptyString
  | String c r => String (lowerByte c) (asciiToLower r)
  end.

(** A letter that starts a word is put in upper case, a letter inside a
    word in lower case; [inWord] tells whether the byte before was a
    letter. *)
Fixpoint asciiTitleFrom (s : string) (inWord : bool) : string :=
  match s with
  | EmptyString => EmptyString
  | String c r =>
      String (if inWord then lowerByte c else upperByte c)
             (asciiTitleFrom r (isLetter c))
  end.

Definition asciiTitle (s : string) : string := asciiTitleFrom s false.

Definition asciiCase : CaseConv :=
  {| ToLower := asciiToLower; Title := asciiTitle |}.

(** ** cronexpression.go *)

Record CronExpression : Type := {
  Seconds : list Z;
  Minutes : list Z;
  Hours : list Z;
  DayOfMonth : list Z;
  Month : list Z;
  DayOfWeek : list Z
}.

Definition monthNameToNumber : gmap string Z :=
  list_to_map
    [("Jan", 1); ("Feb", 2); ("Mar", 3); ("Apr", 4); ("May", 5); ("Jun", 6);
     ("Jul", 7); ("Aug", 8); ("Sep", 9); ("Oct", 10); ("Nov", 11); ("Dec", 12)].

Definition dayNameToNumber : gmap string Z :=
  list_to_map
    [("Sun", 0); ("Mon", 1); ("Tue", 2); ("Wed", 3); ("Thu", 4); ("Fri", 5);
     ("Sat", 6)].

(** [for i := lo; i <= hi; i++ { values = append(values, i) }] *)
Definition appendUpTo (values : list Z) (lo hi : Z) : list Z :=
  values ++ seqZ lo (hi - lo + 1).

Section Parser.
Context {conv : CaseConv}.

Definition parseValue (part : string) (minVal maxVal : Z)
    (nameToNumber : gmap string Z) : result Z :=
  match nameToNumber !! Title (ToLower part) with
  | Some num => Ok num
  | None =>
      match strconv.Atoi part with
      | None => Err (ErrInvalidValue part)
      | Some num =>
          if (num <? minVal) || (num >? maxVal) then Err (ErrOutOfRange num)
          else Ok num
      end
  end.

Definition parseRange (part : string) (minVal maxVal : Z)
    (nameToNumber : gmap string Z) : result (list Z) :=
  match strings.Split part "-" with
  | [startPart; endPart] =>
      match parseValue startPart minVal maxVal nameToNumber with
      | Err _ => Err (ErrInvalidRangeStart startPart)
      | Ok start =>
          match parseValue endPart minVal maxVal nameToNumber with
          | Err _ => Err (ErrInvalidRangeEnd endPart)
          | Ok stop =>
              if start >? stop
              then Ok (appendUpTo (appendUpTo [] start maxVal) minVal stop)
              else Ok (appendUpTo [] start stop)
          end
      end
  | _ => Err (ErrInvalidRange part)
  end.

(** The loop of [parseField] over the comma separated parts; [values] is
    the slice built so far. *)
Fixpoint parseParts (parts : list string) (minVal maxVal : Z)
    (nameToNumber : gmap string Z) (values : list Z) : result (list Z) :=
  match parts with
  | [] => Ok values
  | part :: rest =>
      if strings.Contains part "-" then
        match parseRange part minVal maxVal nameToNumber with
        | Err e => Err e
        | Ok rangeValues =>
            parseParts rest minVal maxVal nameToNumber (values ++ rangeValues)
        end
      else
        match parseValue part minVal maxVal nameToNumber with
        | Err e => Err e
        | Ok num => parseParts rest minVal maxVal nameToNumber (values ++ [num])
        end
  end.

(** The part of [parseStepField] after the base values are known. *)
Definition stepValues (baseValues : list Z) (stepPart : string) (minVal : Z)
    : result (list Z) :=
  match strconv.Atoi stepPart with
  | None => Err (ErrInvalidStep stepPart)
  | Some step =>
      if step <=? 0 then Err (ErrInvalidStep stepPart)
      else Ok (filter (fun val => Z.rem (val - minVal) step = 0) baseValues)
  end.

End Parser.

(** A value with the proof that it is the value of the term looked at. *)
Definition inspect {A} (a : A) : {b : A | a = b} := exist _ a eq_refl.

Section ParseField.
Context {conv : CaseConv}.

(** [parseField] and [parseStepField] call each other: a field with a slash
    goes to [parseStepField], which parses what stands before the slash by
    [parseField]. That base is shorter than the field, so [parseField] is
    defined by recursion on the length of the field, its step case being
    the body of [parseStepField]; [parseStepField] follows, written as in
    the source, and [parseField_eq] below shows that the two satisfy the
    equations of the source. *)

Equations? parseField (field : string) (minVal maxVal : Z)
    (nameToNumber : gmap string Z) : result (list Z)
    by wf (String.length field) lt :=
  parseField field minVal maxVal nameToNumber with String.eqb field "*" := {
    | true => Ok (appendUpTo [] minVal maxVal)
    | false with strings.Contains field "/" := {
        | false =>
            parseParts (strings.Split field ",") minVal maxVal nameToNumber []
        | true with inspect (strings.Split field "/") := {
            | exist _ [base; stepPart] Hsplit
                with parseField base minVal maxVal nameToNumber := {
                | Err e => Err e
                | Ok baseValues => stepValues baseValues stepPart minVal }
            | exist _ _ _ => Err (ErrInvalidStepField field) } } }.
Proof.
  (* the base is shorter than the field: the separator is left out *)
  clear parseField. revert base stepPart Hsplit.
  induction field as [|c r IH]; intros base stepPart; simpl; [done|].
  destruct (Ascii.eqb c "/").
  - intros [= <- _]. simpl. lia.
  - destruct (strings.Split r "/") as [|p ps] eqn:E; [done|].
    intros [= <- ->]. simpl. specialize (IH p stepPart eq_refl). lia.
Qed.

End ParseField.

Section ParseCronExpression.
Context {conv : CaseConv}.

Definition parseStepField (field : string) (minVal maxVal : Z)
    (nameToNumber : gmap string Z) : result (list Z) :=
  match strings.Split field "/" with
  | [base; stepPart] =>
      match parseField base minVal maxVal nameToNumber with
      | Err e => Err e
      | Ok baseValues => stepValues baseValues stepPart minVal
      end
  | _ => Err (ErrInvalidStepField field)
  end.

(** ParseCronExpression parses a cron expression and returns a
    CronExpression object. *)
Definition ParseCronExpression (expr : string) : result CronExpression :=
  let fields := strings.Fields expr in
  if negb (List.length fields =? 6)%nat
  then Err (ErrFieldCount (List.length fields))
  else
    match parseField (fields !!! 0%nat) 0 59 ∅ with
    | Err e => Err e
    | Ok seconds =>
    match parseField (fields !!! 1%nat) 0 59 ∅ with
    | Err e => Err e
    | Ok minutes =>
    match parseField (fields !!! 2%nat) 0 23 ∅ with
    | Err e => Err e
    | Ok hours =>
    match parseField (fields !!! 3%nat) 1 31 ∅ with
    | Err e => Err e
    | Ok dayOfMonth =>
    match parseField (fields !!! 4%nat) 1 12 monthNameToNumber with
    | Err e => Err e
    | Ok month =>
    match parseField (fields !!! 5%nat) 0 6 dayNameToNumber with
    | Err e => Err e
    | Ok dayOfWeek =>
        Ok {| Seconds := seconds; Minutes := minutes; Hours := hours;
              DayOfMonth := dayOfMonth; Month := month;
              DayOfWeek := dayOfWeek |}
    end end end end end end.

End ParseCronExpression.

(** ** The package [time]

    An instant is a count of seconds since the Unix epoch with a nanosecond
    part, read on the clock of a location; a location gives, for each
    instant, the offset of its clock east of UTC in seconds. The monotonic
    reading some instants carry is left out. *)

Module time.

(** The [Duration] constants, in nanoseconds; the underscore tells them
    from the methods of the same name. *)
Definition Nanosecond_ : Z := 1.
Definition Second_ : Z := 1000 * 1000 * 1000.
Definition Minute_ : Z := 60 * Second_.
Definition Hour_ : Z := 60 * Minute_.

Definition minDuration : Z := - 2 ^ 63.
Definition maxDuration : Z := 2 ^ 63 - 1.

Record Time : Type := {
  unixSec : Z;
  nsec : Z;
  zone : Z -> Z
}.

Definition UTC : Z -> Z := fun _ => 0.

(** Seconds on the clock of the instant's location. *)
Definition abs (t : Time) : Z := unixSec t + zone t (unixSec t).

Definition Nanosecond (t : Time) : Z := nsec t.
Definition Second (t : Time) : Z := abs t mod 60.
Definition Minute (t : Time) : Z := (abs t / 60) mod 60.
Definition Hour (t : Time) : Z := (abs t / 3600) mod 24.

(** Days since 1970-01-01, a Thursday. *)
Definition days (t : Time) : Z := abs t / 86400.
Definition Weekday (t : Time) : Z := (days t + 4) mod 7.

(** The proleptic Gregorian date of a day number: (year, month, day). The
    count starts in March, so that the leap day ends the year. *)
Definition civil (d : Z) : Z * Z * Z :=
  let z := d + 719468 in
  let era := z / 146097 in
  let doe := z - era * 146097 in
  let yoe := (doe - doe / 1460 + doe / 36524 - doe / 146096) / 365 in
  let doy := doe - (365 * yoe + yoe / 4 - yoe / 100) in
  let mp := (5 * doy + 2) / 153 in
  let day := doy - (153 * mp + 2) / 5 + 1 in
  let month := if mp <? 10 then mp + 3 else mp - 9 in
  let year := yoe + era * 400 + (if month <=? 2 then 1 else 0) in
  (year, month, day).

Definition Year (t : Time) : Z := (civil (days t)).1.1.
Definition Month (t : Time) : Z := (civil (days t)).1.2.
Definition Day (t : Time) : Z := (civil (days t)).2.

(** [time.Date(year, month, day, hour, min, sec, nsec, time.UTC)] for
    arguments within their usual ranges. *)
Definition Date (year month day hour min sec ns : Z) : Time :=
  let y := if month <=? 2 then year - 1 else year in
  let era := y / 400 in
  let yoe := y - era * 400 in
  let mp := if month >? 2 then month - 3 else month + 9 in
  let doy := (153 * mp + 2) / 5 + day - 1 in
  let doe := yoe * 365 + yoe / 4 - yoe / 100 + doy in
  let d := era * 146097 + doe - 719468 in
  {| unixSec := d * 86400 + hour * 3600 + min * 60 + sec;
     nsec := ns; zone := UTC |}.

(** [t.Add(d)] *)
Definition Add (t : Time) (d : Z) : Time :=
  let dsec := Z.quot d 1000000000 in
  let ns := nsec t + Z.rem d 1000000000 in
  if ns >=? 1000000000 then
    {| unixSec := unixSec t + dsec + 1; nsec := ns - 1000000000;
       zone := zone t |}
  else if ns <? 0 then
    {| unixSec := unixSec t + dsec - 1; nsec := ns + 1000000000;
       zone := zone t |}
  else {| unixSec := unixSec t + dsec; nsec := ns; zone := zone t |}.

(** [t.Sub(u)]: the difference in nanoseconds, kept within the range of a
    [Duration]. *)
Definition Sub (t u : Time) : Z :=
  let d := (unixSec t - unixSec u) * Second_ + (nsec t - nsec u) in
  if d <? minDuration then minDuration
  else if d >? maxDuration then maxDuration
  else d.

(** [time.Time{}]: January 1, year 1, 00:00:00 UTC. *)
Definition zero : Time :=
  {| unixSec := -62135596800; nsec := 0; zone := UTC |}.

Definition IsZero (t : Time) : bool :=
  (unixSec t =? -62135596800) && (nsec t =? 0).

(** The instants the clock can show: the nanosecond part is below a
    second. *)
Definition wf (t : Time) : Prop := 0 <= nsec t < 1000000000.

End time.

(** ** The scheduler *)

Fixpoint contains (list : list Z) (value : Z) : bool :=
  match list with
  | [] => false
  | v :: rest => if v =? value then true else contains rest value
  end.

Definition isTimeMatching (expr : CronExpression) (t : time.Time) : bool :=
  if negb (contains (Seconds expr) (time.Second t)) then false
  else if negb (contains (Minutes expr) (time.Minute t)) then false
  else if negb (contains (Hours expr) (time.Hour t)) then false
  else if negb (contains (DayOfMonth expr) (time.Day t)) then false
  else if negb (contains (Month expr) (time.Month t)) then false
  else
    let weekday := time.Weekday t in
    let weekday := if weekday =? 0 then 7 else weekday in
    if negb (contains (DayOfWeek expr) (Z.rem weekday 7)) then false
    else true.

Definition maxIterations : nat := Z.to_nat 1000000.

(** The loop of [nextRunTime], with [n] iterations left. *)
Fixpoint nextRunLoop (n : nat) (expr : CronExpression) (nextTime : time.Time)
    : time.Time :=
  match n with
  | O => time.zero
  | S k =>
      if isTimeMatching expr nextTime then nextTime
      else nextRunLoop k expr (time.Add nextTime time.Second_)
  end.

Definition nextRunTime (expr : CronExpression) (fromTime : time.Time)
    : time.Time :=
  let nextTime :=
    time.Add fromTime (time.Second_ - time.Nanosecond fromTime) in
  nextRunLoop maxIterations expr nextTime.

Section Scheduler.
Context {conv : CaseConv}.
(** The type of the tasks, [func()] in the source. *)
Context {Func : Type}.

Record Job : Type := {
  Schedule : CronExpression;
  Task : Func
}.

(** The mutex and the stop channel of the source guard and end the loop of
    [Start]; the operations below are what runs under the lock. *)
Record CronScheduler : Type := {
  Jobs : list Job;
  running : bool
}.

Definition NewCronScheduler : CronScheduler :=
  {| Jobs := []; running := false |}.

(** [AddJob] and [RemoveJob] return the scheduler they leave behind and
    their error, [None] for [nil]. *)
Definition AddJob (c : CronScheduler) (expr : string) (task : Func)
    : CronScheduler * option error :=
  match ParseCronExpression expr with
  | Err err => (c, Some err)
  | Ok schedule =>
      let job := {| Schedule := schedule; Task := task |} in
      ({| Jobs := Jobs c ++ [job]; running := running c |}, None)
  end.

Definition RemoveJob (c : CronScheduler) (index : Z)
    : CronScheduler * option error :=
  if (index <? 0) || (index >=? Z.of_nat (List.length (Jobs c)))
  then (c, Some ErrIndexOutOfRange)
  else
    ({| Jobs := take (Z.to_nat index) (Jobs c)
                ++ drop (Z.to_nat (index + 1)) (Jobs c);
        running := running c |}, None).

(** The loop of [timeUntilNextJob] over the jobs. *)
Fixpoint minDurationLoop (jobs : list Job) (now : time.Time)
    (minDuration : Z) : Z :=
  match jobs with
  | [] => minDuration
  | job :: rest =>
      let nextRun := nextRunTime (Schedule job) now in
      if time.IsZero nextRun then minDurationLoop rest now minDuration
      else
        let duration := time.Sub nextRun now in
        if duration <? minDuration then minDurationLoop rest now duration
        else minDurationLoop rest now minDuration
  end.

Definition timeUntilNextJob (c : CronScheduler) (now : time.Time) : Z :=
  let minDuration := time.Hour_ * 24 * 365 in
  minDurationLoop (Jobs c) now minDuration.

End Scheduler.

Arguments Job : clear implicits.
Arguments CronScheduler : clear implicits.

(** ** The rest of the scheduler: running the due jobs, starting and
    stopping, listing *)

Section SchedulerRest.
Context {Func : Type}.

(** The first loop of [runDueJobs], which picks the jobs to run under the
    lock; [jobsToRun] is the slice built so far. *)
Fixpoint selectDue (jobs : list (Job Func)) (now : time.Time)
    (jobsToRun : list (Job Func)) : list (Job Func) :=
  match jobs with
  | [] => jobsToRun
  | job :: rest =>
      if isTimeMatching (Schedule job) now
      then selectDue rest now (jobsToRun ++ [job])
      else selectDue rest now jobsToRun
  end.

(** [runDueJobs] starts the task of each job picked in a goroutine of its
    own; the result is the jobs whose tasks it starts, in the order it
    starts them. *)
Definition runDueJobs (c : CronScheduler Func) (now : time.Time)
    : list (Job Func) :=
  selectDue (Jobs c) now [].

(** The stop channel of the scheduler: [nil], made and open, or closed. *)
Inductive Chan : Type := chanNil | chanOpen | chanClosed.

(** The scheduler with its stop channel. *)
Record Handle : Type := {
  sched : CronScheduler Func;
  stop : Chan
}.

Definition setRunning (c : CronScheduler Func) (b : bool)
    : CronScheduler Func :=
  {| Jobs := Jobs c; running := b |}.

(** What [Start] does to the scheduler before it launches the loop. *)
Definition Start (h : Handle) : Handle :=
  if running (sched h) then h
  else
    {| sched := setRunning (sched h) true;
       stop := match stop h with chanNil => chanOpen | ch => ch end |}.

(** [Stop]; [None] stands for the panic of [close] on a channel that is
    [nil] or closed already. *)
Definition Stop (h : Handle) : option Handle :=
  if running (sched h) then
    match stop h with
    | chanOpen => Some {| sched := setRunning (sched h) false;
                          stop := chanNil |}
    | _ => None
    end
  else Some h.

(** [%d] of an [int]. *)
Definition formatInt (z : Z) : string := NilZero.string_of_int (Z.to_int z).

(** [%v] of a slice of [int]: the numbers between brackets, a space
    between two of them. *)
Definition formatSlice (values : list Z) : string :=
  "[" ++ String.concat " " (map formatInt values) ++ "]".

(** [%v] of a pointer to a [CronExpression]. *)
Definition formatSchedule (e : CronExpression) : string :=
  "&{" ++ formatSlice (Seconds e) ++ " " ++ formatSlice (Minutes e) ++ " "
  ++ formatSlice (Hours e) ++ " " ++ formatSlice (DayOfMonth e) ++ " "
  ++ formatSlice (Month e) ++ " " ++ formatSlice (DayOfWeek e) ++ "}".

(** [fmt.Sprintf("Job %d: %v", i, job.Schedule)] *)
Definition jobLine (i : nat) (job : Job Func) : string :=
  "Job " ++ formatInt (Z.of_nat i) ++ ": " ++ formatSchedule (Schedule job).

(** The loop of [ListJobs] from index [i] on. *)
Fixpoint listFrom (jobs : list (Job Func)) (i : nat) (jobList : list string)
    : list string :=
  match jobs with
  | [] => jobList
  | job :: rest => listFrom rest (S i) (jobList ++ [jobLine i job])
  end.

Definition ListJobs (c : CronScheduler Func) : list string :=
  listFrom (Jobs c) 0 [].

End SchedulerRest.

Arguments Handle : clear implicits.

(** The calls a user of the scheduler can make. *)
Inductive Call (Func : Type) : Type :=
| CallAddJob (expr : string) (task : Func)
| CallRemoveJob (index : Z)
| CallStart
| CallStop.
Arguments CallAddJob {Func} expr task.
Arguments CallRemoveJob {Func} index.
Arguments CallStart {Func}.
Arguments CallStop {Func}.

Section Calls.
Context {conv : CaseConv} {Func : Type}.

Definition call (h : Handle Func) (op : Call Func) : option (Handle Func) :=
  match op with
  | CallAddJob expr task =>
      Some {| sched := (AddJob (sched h) expr task).1; stop := stop h |}
  | CallRemoveJob index =>
      Some {| sched := (RemoveJob (sched h) index).1; stop := stop h |}
  | CallStart => Some (Start h)
  | CallStop => Stop h
  end.

(** The calls of a list one after the other; [None] when one panics. *)
Fixpoint calls (h : Handle Func) (ops : list (Call Func))
    : option (Handle Func) :=
  match ops with
  | [] => Some h
  | op :: rest =>
      match call h op with
      | Some h' => calls h' rest
      | None => None
      end
  end.

Definition NewHandle : Handle Func :=
  {| sched := NewCronScheduler; stop := chanNil |}.

(** The scheduler runs with an open stop channel, or is stopped with
    none. *)
Definition consistent (h : Handle Func) : Prop :=
  (running (sched h) = true /\ stop h = chanOpen)
  \/ (running (sched h) = false /\ stop h = chanNil).

End Calls.

(** ** The vocabulary of the properties *)

Definition within (minVal maxVal : Z) (v : Z) : Prop := minVal <= v <= maxVal.

(** The numbers of a name table lie between the bounds. *)
Definition tableWithin (minVal maxVal : Z) (nameToNumber : gmap string Z)
    : Prop :=
  map_Forall (fun _ num => within minVal maxVal num) nameToNumber.

Definition legal (e : CronExpression) : Prop :=
  Forall (within 0 59) (Seconds e)
  /\ Forall (within 0 59) (Minutes e)
  /\ Forall (within 0 23) (Hours e)
  /\ Forall (within 1 31) (DayOfMonth e)
  /\ Forall (within 1 12) (Month e)
  /\ Forall (within 0 6) (DayOfWeek e).

(** The members of [baseValues] a step keeps, in the words of the
    specification: those [v] with [(v - minVal) mod step = 0]. *)
Definition keepStep (minVal step : Z) (baseValues : list Z) : list Z :=
  filter (fun v => (v - minVal) mod step = 0) baseValues.

(** The errors of a step: [invalid step] and [invalid step field]. *)
Definition isStepError (e : error) : bool :=
  match e with
  | ErrInvalidStep _ | ErrInvalidStepField _ => true
  | _ => false
  end.

(** The whole second [k] seconds after the one that follows [fromTime]. *)
Definition secondAfter (fromTime : time.Time) (k : Z) : time.Time :=
  {| time.unixSec := time.unixSec fromTime + 1 + k;
     time.nsec := 0;
     time.zone := time.zone fromTime |}.

(** The month and the day that [time.civil] computes from the day of the
    400 year era are a month and a day of a month. *)
Definition dateOk (doe : Z) : bool :=
  let yoe := (doe - doe / 1460 + doe / 36524 - doe / 146096) / 365 in
  let doy := doe - (365 * yoe + yoe / 4 - yoe / 100) in
  let mp := (5 * doy + 2) / 153 in
  let day := doy - (153 * mp + 2) / 5 + 1 in
  let month := if mp <? 10 then mp + 3 else mp - 9 in
  (1 <=? month) && (month <=? 12) && (1 <=? day) && (day <=? 31).

(** [f] holds of the [n] integers from [z] on. *)
Fixpoint allFrom (f : Z -> bool) (n : nat) (z : Z) : bool :=
  match n with
  | O => true
  | S k => f z && allFrom f k (z + 1)
  end.

(** The bounds and the name table of each of the six fields, in the order
    [ParseCronExpression] parses them. *)
Definition fieldBounds : list (Z * Z * gmap string Z) :=
  [(0, 59, ∅); (0, 59, ∅); (0, 23, ∅); (1, 31, ∅);
   (1, 12, monthNameToNumber); (0, 6, dayNameToNumber)].

Section Vocabulary.
Context {conv : CaseConv} {Func : Type}.

(** The call of [parseField] for the field of index [i]. *)
Definition parseNth (fields : list string) (i : nat) : result (list Z) :=
  match fieldBounds !! i with
  | Some (minVal, maxVal, nameToNumber) =>
      parseField (fields !!! i) minVal maxVal nameToNumber
  | None => Ok []
  end.

(** What the loop of [parseField] does with one item of a list: a range
    when it has a dash, a single value otherwise. *)
Definition parsePart (part : string) (minVal maxVal : Z)
    (nameToNumber : gmap string Z) : result (list Z) :=
  if strings.Contains part "-"
  then parseRange part minVal maxVal nameToNumber
  else match parseValue part minVal maxVal nameToNumber with
       | Ok num => Ok [num]
       | Err e => Err e
       end.

(** The expression has the six sets the six calls of [parseField] return. *)
Definition parsedFrom (fields : list string) (e : CronExpression) : Prop :=
  exists sec min hour dom mon dow,
    fields = [sec; min; hour; dom; mon; dow]
    /\ parseField sec 0 59 ∅ = Ok (Seconds e)
    /\ parseField min 0 59 ∅ = Ok (Minutes e)
    /\ parseField hour 0 23 ∅ = Ok (Hours e)
    /\ parseField dom 1 31 ∅ = Ok (DayOfMonth e)
    /\ parseField mon 1 12 monthNameToNumber = Ok (Month e)
    /\ parseField dow 0 6 dayNameToNumber = Ok (DayOfWeek e).

(** One of the six calls of [parseField] fails with [err]. *)
Definition fieldFails (fields : list string) (err : error) : Prop :=
  parseField (fields !!! 0%nat) 0 59 ∅ = Err err
  \/ parseField (fields !!! 1%nat) 0 59 ∅ = Err err
  \/ parseField (fields !!! 2%nat) 0 23 ∅ = Err err
  \/ parseField (fields !!! 3%nat) 1 31 ∅ = Err err
  \/ parseField (fields !!! 4%nat) 1 12 monthNameToNumber = Err err
  \/ parseField (fields !!! 5%nat) 0 6 dayNameToNumber = Err err.

(** The duration a job asks for, and whether its next run was found. *)
Definition untilNext (now : time.Time) (job : Job Func) : Z :=
  time.Sub (nextRunTime (Schedule job) now) now.

Definition hasNext (now : time.Time) (job : Job Func) : bool :=
  negb (time.IsZero (nextRunTime (Schedule job) now)).

Definition oneYear : Z := time.Hour_ * 24 * 365.

End Vocabulary.

(** * Properties *)

(** ** The library functions on examples *)

Example Fields_blanks :
  strings.Fields "  30 15 14   1 1 * " = ["30"; "15"; "14"; "1"; "1"; "*"].
Proof. reflexivity. Qed.

Example Fields_tab :
  strings.Fields (String (ascii_of_N 9) "0 */5"
                  ++ String (ascii_of_N 10) "Mon")
  = ["0"; "*/5"; "Mon"].
Proof. reflexivity. Qed.

(** A no-break space, U+00A0, is white space; its second byte alone is
    not. *)
Example Fields_nbsp :
  strings.Fields (String (ascii_of_N 42) (String (ascii_of_N 194)
                  (String (ascii_of_N 160) "5")))
  = ["*"; "5"]
  /\ List.length (strings.Fields (String (ascii_of_N 42)
                    (String (ascii_of_N 160) "5"))) = 1%nat.
Proof. split; reflexivity. Qed.

Example Split_commas :
  strings.Split "1,3-5,,Jan" "," = ["1"; "3-5"; ""; "Jan"]
  /\ strings.Split "" "," = [""]
  /\ strings.Split "*/15" "/" = ["*"; "15"].
Proof. repeat split; reflexivity. Qed.

Example Atoi_examples :
  strconv.Atoi "15" = Some 15 /\ strconv.Atoi "-5" = Some (-5)
  /\ strconv.Atoi "+07" = Some 7 /\ strconv.Atoi "" = None
  /\ strconv.Atoi "-" = None /\ strconv.Atoi "1x" = None
  /\ strconv.Atoi "9223372036854775807" = Some 9223372036854775807
  /\ strconv.Atoi "9223372036854775808" = None
  /\ strconv.Atoi "-9223372036854775808" = Some (-9223372036854775808).
Proof. repeat split; reflexivity. Qed.

Example asciiCase_names :
  @Title asciiCase (@ToLower asciiCase "FRI") = "Fri"
  /\ @Title asciiCase (@ToLower asciiCase "jan") = "Jan"
  /\ @Title asciiCase (@ToLower asciiCase "13") = "13"
  /\ @Title asciiCase (@ToLower asciiCase "") = "".
Proof. repeat split; reflexivity. Qed.

(** 14:15:30 UTC on January 1, 2023 is second 1672582530 of the Unix era
    and a Sunday; February 29, 2024 is a Thursday; a second after the end of
    2023 the year has turned; the zero instant is a Monday of year 1. *)
Example Date_examples :
  let clock t := (time.Year t, time.Month t, time.Day t, time.Hour t,
                  time.Minute t, time.Second t, time.Weekday t) in
  time.unixSec (time.Date 2023 1 1 14 15 30 0) = 1672582530
  /\ clock (time.Date 2023 1 1 14 15 30 0) = (2023, 1, 1, 14, 15, 30, 0)
  /\ clock (time.Date 2024 2 29 23 59 59 0) = (2024, 2, 29, 23, 59, 59, 4)
  /\ clock (time.Add (time.Date 2023 12 31 23 59 59 0) time.Second_)
     = (2024, 1, 1, 0, 0, 0, 1)
  /\ time.Date 1 1 1 0 0 0 0 = time.zero
  /\ clock time.zero = (1, 1, 1, 0, 0, 0, 1)
  /\ time.IsZero time.zero = true.
Proof. repeat split; reflexivity. Qed.

(** ** Strings *)

Lemma Split_length (s : string) (sep : ascii) :
  List.length (strings.Split s sep) = S (strings.Count s sep).
Proof.
  induction s as [|c r IH]; simpl; [done|].
  destruct (Ascii.eqb c sep); simpl; [by rewrite IH|].
  destruct (strings.Split r sep); simpl in *; lia.
Qed.

Lemma Contains_Count (s : string) (sep : ascii) :
  strings.Contains s sep = true <-> (0 < strings.Count s sep)%nat.
Proof.
  induction s as [|c r IH]; simpl; [split; [done|lia]|].
  destruct (Ascii.eqb c sep); simpl; [split; [lia|done]|].
  by rewrite IH.
Qed.

Lemma Contains_false_Split (s : string) (sep : ascii) :
  strings.Contains s sep = false -> strings.Split s sep = [s].
Proof.
  induction s as [|c r IH]; simpl; [done|].
  destruct (Ascii.eqb c sep); simpl; [done|].
  intros H. by rewrite (IH H).
Qed.

(** ** The parser *)

Section ParserFacts.
Context {conv : CaseConv}.
Implicit Types (field part : string) (minVal maxVal : Z).
Implicit Types (nameToNumber : gmap string Z).

(** [parseField] and [parseStepField] call each other as in the source. *)
Lemma parseField_eq field minVal maxVal nameToNumber :
  parseField field minVal maxVal nameToNumber =
  if String.eqb field "*" then Ok (appendUpTo [] minVal maxVal)
  else if strings.Contains field "/"
       then parseStepField field minVal maxVal nameToNumber
       else parseParts (strings.Split field ",") minVal maxVal nameToNumber [].
Proof.
  unfold parseStepField. funelim (parseField field minVal maxVal nameToNumber).
  all: try clear Heqcall.
  all: repeat match goal with
         | H : parseField _ _ _ _ = (if _ then _ else _) |- _ => clear H
         end.
  all: repeat match goal with
         | H : ?x = _ |- context [?x] => rewrite H
         end; done.
Qed.

(** *** Every value kept lies between the bounds of its field *)

Lemma appendUpTo_within minVal maxVal values lo hi :
  Forall (within minVal maxVal) values -> minVal <= lo -> hi <= maxVal ->
  Forall (within minVal maxVal) (appendUpTo values lo hi).
Proof.
  intros Hv Hlo Hhi. unfold appendUpTo. apply Forall_app. split; [done|].
  apply Forall_forall. intros v Hin%elem_of_seqZ. unfold within. lia.
Qed.

Lemma parseValue_within part minVal maxVal nameToNumber num :
  tableWithin minVal maxVal nameToNumber ->
  parseValue part minVal maxVal nameToNumber = Ok num ->
  within minVal maxVal num.
Proof.
  intros Htab. unfold parseValue.
  destruct (nameToNumber !! Title (ToLower part)) as [n|] eqn:Hname.
  - intros [= <-]. exact (Htab _ _ Hname).
  - destruct (strconv.Atoi part) as [n|]; [|done].
    destruct ((n <? minVal) || (n >? maxVal)) eqn:Hb; [done|].
    intros [= <-]. unfold within.
    apply orb_false_iff in Hb as [H1 H2]. lia.
Qed.

Lemma parseRange_within part minVal maxVal nameToNumber values :
  tableWithin minVal maxVal nameToNumber ->
  parseRange part minVal maxVal nameToNumber = Ok values ->
  Forall (within minVal maxVal) values.
Proof.
  intros Htab. unfold parseRange.
  destruct (strings.Split part "-") as [|a [|b [|? ?]]]; try done.
  destruct (parseValue a minVal maxVal nameToNumber) as [start|] eqn:Ha;
    [|done].
  destruct (parseValue b minVal maxVal nameToNumber) as [stop|] eqn:Hb;
    [|done].
  apply (parseValue_within _ _ _ _ _ Htab) in Ha, Hb. unfold within in *.
  destruct (start >? stop); intros [= <-];
    repeat apply appendUpTo_within; try apply Forall_nil_2; lia.
Qed.

Lemma parseParts_within parts minVal maxVal nameToNumber values result :
  tableWithin minVal maxVal nameToNumber ->
  Forall (within minVal maxVal) values ->
  parseParts parts minVal maxVal nameToNumber values = Ok result ->
  Forall (within minVal maxVal) result.
Proof.
  intros Htab. revert values.
  induction parts as [|part rest IH]; intros values Hv; simpl.
  - by intros [= <-].
  - destruct (strings.Contains part "-").
    + destruct (parseRange part minVal maxVal nameToNumber) as [rv|] eqn:Hr;
        [|done].
      apply IH, Forall_app. split; [done|].
      by eapply parseRange_within.
    + destruct (parseValue part minVal maxVal nameToNumber) as [num|] eqn:Hp;
        [|done].
      apply IH, Forall_app. split; [done|].
      apply Forall_singleton. by eapply parseValue_within.
Qed.

Lemma stepValues_sub baseValues stepPart minVal values :
  stepValues baseValues stepPart minVal = Ok values ->
  values ⊆ baseValues.
Proof.
  unfold stepValues. destruct (strconv.Atoi stepPart) as [step|]; [|done].
  destruct (step <=? 0); [done|]. intros [= <-].
  intros v Hv%list_elem_of_filter. tauto.
Qed.

Lemma parseField_within field minVal maxVal nameToNumber values :
  tableWithin minVal maxVal nameToNumber ->
  parseField field minVal maxVal nameToNumber = Ok values ->
  Forall (within minVal maxVal) values.
Proof.
  intros Htab. revert values.
  funelim (parseField field minVal maxVal nameToNumber); intros values;
    try done.
  - intros [= <-]. apply appendUpTo_within; [apply Forall_nil_2|lia..].
  - by apply parseParts_within.
  - intros Hstep%stepValues_sub.
    match goal with
    | IH : _ -> forall _, _ -> Forall _ _ |- _ => specialize (IH Htab _ Heq)
    end.
    rewrite Forall_forall in *. auto.
Qed.

Lemma monthNameToNumber_within : tableWithin 1 12 monthNameToNumber.
Proof.
  unfold tableWithin, monthNameToNumber, within. simpl.
  repeat (apply map_Forall_insert_2; [lia|]). apply map_Forall_empty.
Qed.

Lemma dayNameToNumber_within : tableWithin 0 6 dayNameToNumber.
Proof.
  unfold tableWithin, dayNameToNumber, within. simpl.
  repeat (apply map_Forall_insert_2; [lia|]). apply map_Forall_empty.
Qed.

Lemma nil_within minVal maxVal : tableWithin minVal maxVal ∅.
Proof. apply map_Forall_empty. Qed.

(** The fields of an expression the parser accepts, as a list of six. *)
Lemma Fields_six (l : list string) :
  List.length l = 6%nat ->
  l = [l !!! 0%nat; l !!! 1%nat; l !!! 2%nat; l !!! 3%nat; l !!! 4%nat;
       l !!! 5%nat].
Proof.
  destruct l as [|a [|b [|c [|d [|e [|f [|? ?]]]]]]]; simpl; try done.
Qed.

Lemma ParseCronExpression_cases (expr : string) :
  match ParseCronExpression expr with
  | Ok e => parsedFrom (strings.Fields expr) e
  | Err err =>
      (List.length (strings.Fields expr) <> 6%nat
       /\ err = ErrFieldCount (List.length (strings.Fields expr)))
      \/ (List.length (strings.Fields expr) = 6%nat
          /\ fieldFails (strings.Fields expr) err)
  end.
Proof.
  unfold ParseCronExpression, fieldFails. cbv zeta.
  destruct (Nat.eqb_spec (List.length (strings.Fields expr)) 6) as [Hn|Hn];
    simpl; [|by left].
  destruct (parseField (_ !!! 0%nat) _ _ _) eqn:H0; [|right; tauto].
  destruct (parseField (_ !!! 1%nat) _ _ _) eqn:H1; [|right; tauto].
  destruct (parseField (_ !!! 2%nat) _ _ _) eqn:H2; [|right; tauto].
  destruct (parseField (_ !!! 3%nat) _ _ _) eqn:H3; [|right; tauto].
  destruct (parseField (_ !!! 4%nat) _ _ _) eqn:H4; [|right; tauto].
  destruct (parseField (_ !!! 5%nat) _ _ _) eqn:H5; [|right; tauto].
  eexists _, _, _, _, _, _. split; [by apply Fields_six|]. simpl. tauto.
Qed.

(** C4: when [ParseCronExpression] succeeds, the six sets it returns are the
    results of the six successful calls of [parseField] and every member
    lies in the legal range of its field (seconds and minutes 0..59, hours
    0..23, day of month 1..31, month 1..12, day of week 0..6); when it
    fails it returns an error alone: the field count error, or the error of
    a field that failed, and no expression. *)
Theorem ParseCronExpression_legal (expr : string) :
  match ParseCronExpression expr with
  | Ok e => parsedFrom (strings.Fields expr) e /\ legal e
  | Err err =>
      (List.length (strings.Fields expr) <> 6%nat
       /\ err = ErrFieldCount (List.length (strings.Fields expr)))
      \/ (List.length (strings.Fields expr) = 6%nat
          /\ fieldFails (strings.Fields expr) err)
  end.
Proof.
  pose proof (ParseCronExpression_cases expr) as H.
  destruct (ParseCronExpression expr) as [e|err]; [|done].
  split; [done|].
  destruct H as (sec & min & hour & dom & mon & dow & _ & H0 & H1 & H2 & H3
                 & H4 & H5).
  repeat split; eapply parseField_within; eauto using nil_within,
    monthNameToNumber_within, dayNameToNumber_within.
Qed.

(** C8: an input that does not split on white space into exactly 6 fields
    is refused with the field count error, which reports the count. *)
Theorem ParseCronExpression_field_count (expr : string) :
  List.length (strings.Fields expr) <> 6%nat ->
  ParseCronExpression expr
  = Err (ErrFieldCount (List.length (strings.Fields expr))).
Proof.
  intros Hn. unfold ParseCronExpression. cbv zeta.
  by destruct (Nat.eqb_spec (List.length (strings.Fields expr)) 6).
Qed.

(** *** Step expressions *)

Lemma Split_two_step field base stepPart :
  strings.Split field "/" = [base; stepPart] ->
  String.eqb field "*" = false /\ strings.Contains field "/" = true.
Proof.
  intros Hsplit. split.
  - destruct (String.eqb_spec field "*") as [->|]; [done|done].
  - apply Contains_Count.
    pose proof (Split_length field "/") as Hlen.
    rewrite Hsplit in Hlen. simpl in Hlen. lia.
Qed.

Lemma rem_mod_zero (a b : Z) : 0 < b -> Z.rem a b = 0 <-> a mod b = 0.
Proof.
  intros Hb. rewrite Z.rem_divide, Z.mod_divide by lia. done.
Qed.

(** C5, as the code has it: for a step token [base/stepPart] the base is
    parsed first, by [parseField] with the same bounds and names, and its
    error is the error of the field; when the base gives a base set, a step
    part that [strconv.Atoi] reads as a positive [int] keeps exactly the
    members [v] with [(v - minVal) mod step = 0], in their order, and any
    other step part fails with the step error. *)
Theorem parseField_step field base stepPart minVal maxVal nameToNumber :
  strings.Split field "/" = [base; stepPart] ->
  parseField field minVal maxVal nameToNumber =
  match parseField base minVal maxVal nameToNumber with
  | Err e => Err e
  | Ok baseValues =>
      match strconv.Atoi stepPart with
      | Some step =>
          if 0 <? step then Ok (keepStep minVal step baseValues)
          else Err (ErrInvalidStep stepPart)
      | None => Err (ErrInvalidStep stepPart)
      end
  end.
Proof.
  intros Hsplit. destruct (Split_two_step _ _ _ Hsplit) as [Hstar Hslash].
  rewrite parseField_eq, Hstar, Hslash. unfold parseStepField.
  rewrite Hsplit.
  destruct (parseField base minVal maxVal nameToNumber) as [baseValues|];
    [|done].
  unfold stepValues. destruct (strconv.Atoi stepPart) as [step|]; [|done].
  destruct (Z.leb_spec step 0), (Z.ltb_spec 0 step); try lia; [done|].
  f_equal. apply list_filter_iff. intros v. by apply rem_mod_zero.
Qed.

(** *** Ranges *)

(** C3: a range token whose start resolves to a larger number than its end
    wraps around: it gives the numbers from the start up to [maxVal] and
    then those from [minVal] up to the end; as a field of its own the
    weekday range [Fri-Mon] gives 5, 6, 0, 1. *)
Theorem parseRange_wraps :
  (forall part startPart endPart minVal maxVal nameToNumber start stop,
      strings.Split part "-" = [startPart; endPart] ->
      parseValue startPart minVal maxVal nameToNumber = Ok start ->
      parseValue endPart minVal maxVal nameToNumber = Ok stop ->
      start > stop ->
      exists values,
        parseRange part minVal maxVal nameToNumber = Ok values
        /\ values = (seqZ start (maxVal - start + 1)
                     ++ seqZ minVal (stop - minVal + 1))%list
        /\ forall v, v ∈ values <->
                     start <= v <= maxVal \/ minVal <= v <= stop)
  /\ @parseField asciiCase "Fri-Mon" 0 6 dayNameToNumber = Ok [5; 6; 0; 1].
Proof.
  split; [|by vm_compute].
  intros part startPart endPart minVal maxVal nameToNumber start stop
    Hsplit Hstart Hstop Hgt.
  eexists. split; [|split; [reflexivity|]].
  - unfold parseRange. rewrite Hsplit, Hstart, Hstop.
    destruct (Z.gtb_spec start stop); [|lia]. done.
  - intros v. rewrite elem_of_app, !elem_of_seqZ. lia.
Qed.

(** *** Tokens with a dash *)

Lemma parseParts_ranges parts minVal maxVal nameToNumber values result :
  parseParts parts minVal maxVal nameToNumber values = Ok result ->
  forall part, part ∈ parts -> strings.Contains part "-" = true ->
    exists rangeValues,
      parseRange part minVal maxVal nameToNumber = Ok rangeValues
      /\ rangeValues ⊆ result.
Proof.
  assert (Hmono : forall ps vs res,
             parseParts ps minVal maxVal nameToNumber vs = Ok res ->
             vs ⊆ res).
  { induction ps as [|p ps IH]; intros vs res; simpl.
    - by intros [= <-].
    - destruct (strings.Contains p "-").
      + destruct (parseRange p minVal maxVal nameToNumber); [|done].
        intros H%IH. set_solver.
      + destruct (parseValue p minVal maxVal nameToNumber); [|done].
        intros H%IH. set_solver. }
  revert values. induction parts as [|p ps IH]; intros values; simpl.
  - intros _ part Hin. by apply elem_of_nil in Hin.
  - intros Hres part Hin Hdash. apply elem_of_cons in Hin as [->|Hin].
    + rewrite Hdash in Hres.
      destruct (parseRange p minVal maxVal nameToNumber) as [rv|]; [|done].
      exists rv. split; [done|]. apply Hmono in Hres. set_solver.
    + destruct (strings.Contains p "-").
      * destruct (parseRange p minVal maxVal nameToNumber); [|done].
        by eapply IH.
      * destruct (parseValue p minVal maxVal nameToNumber); [|done].
        by eapply IH.
Qed.

Lemma Contains_dash_not_star tok :
  strings.Contains tok "-" = true -> String.eqb tok "*" = false.
Proof. by destruct (String.eqb_spec tok "*") as [->|]. Qed.

Lemma parseField_token tok minVal maxVal nameToNumber :
  strings.Contains tok "-" = true ->
  strings.Contains tok "/" = false ->
  strings.Contains tok "," = false ->
  parseField tok minVal maxVal nameToNumber
  = parseRange tok minVal maxVal nameToNumber.
Proof.
  intros Hdash Hslash Hcomma.
  rewrite parseField_eq, (Contains_dash_not_star _ Hdash), Hslash.
  rewrite (Contains_false_Split _ _ Hcomma). simpl. rewrite Hdash.
  by destruct (parseRange tok minVal maxVal nameToNumber).
Qed.

(** C10: a token with a dash, outside a step expression, is always read as
    a range. Alone in its field it is parsed by [parseRange]; in a list
    that parses, each item with a dash is a range whose values are in the
    result. So [-5] is neither the number -5 nor a literal out of range:
    its range start is empty and, the empty token being no name of the
    table, the field fails with the error of an invalid range start. A
    token with two dashes or more fails as an invalid range, and so does
    not let the list it stands in parse. *)
Theorem dash_token_is_range minVal maxVal nameToNumber :
  (forall tok,
      strings.Contains tok "-" = true ->
      strings.Contains tok "/" = false ->
      strings.Contains tok "," = false ->
      parseField tok minVal maxVal nameToNumber
      = parseRange tok minVal maxVal nameToNumber)
  /\ (forall field values,
        strings.Contains field "/" = false ->
        parseField field minVal maxVal nameToNumber = Ok values ->
        forall part,
          part ∈ strings.Split field "," ->
          strings.Contains part "-" = true ->
          exists rangeValues,
            parseRange part minVal maxVal nameToNumber = Ok rangeValues
            /\ rangeValues ⊆ values)
  /\ (nameToNumber !! Title (ToLower "") = None ->
      strings.Split "-5" "-" = [""; "5"]
      /\ parseField "-5" minVal maxVal nameToNumber
         = Err (ErrInvalidRangeStart ""))
  /\ (forall tok,
        (2 <= strings.Count tok "-")%nat ->
        strings.Contains tok "/" = false ->
        strings.Contains tok "," = false ->
        parseField tok minVal maxVal nameToNumber
        = Err (ErrInvalidRange tok))
  /\ (forall field part,
        strings.Contains field "/" = false ->
        part ∈ strings.Split field "," ->
        (2 <= strings.Count part "-")%nat ->
        parseRange part minVal maxVal nameToNumber
        = Err (ErrInvalidRange part)
        /\ isOk (parseField field minVal maxVal nameToNumber) = false).
Proof.
  assert (Hmany : forall part, (2 <= strings.Count part "-")%nat ->
            parseRange part minVal maxVal nameToNumber
            = Err (ErrInvalidRange part)).
  { intros part Hcount. unfold parseRange.
    pose proof (Split_length part "-") as Hlen.
    destruct (strings.Split part "-") as [|a [|b [|? ?]]]; simpl in Hlen;
      try done; lia. }
  assert (Hlist : forall field values,
            strings.Contains field "/" = false ->
            parseField field minVal maxVal nameToNumber = Ok values ->
            forall part,
              part ∈ strings.Split field "," ->
              strings.Contains part "-" = true ->
              exists rangeValues,
                parseRange part minVal maxVal nameToNumber = Ok rangeValues
                /\ rangeValues ⊆ values).
  { intros field values Hslash Hok part Hin Hdash.
    rewrite parseField_eq, Hslash in Hok.
    destruct (String.eqb_spec field "*") as [->|_].
    - simpl in Hin. apply list_elem_of_singleton in Hin as ->. done.
    - by eapply parseParts_ranges. }
  split; [|split; [|split; [|split]]].
  - intros tok. apply parseField_token.
  - exact Hlist.
  - intros Hname. split; [done|].
    rewrite parseField_token by done.
    unfold parseRange. simpl. unfold parseValue. by rewrite Hname.
  - intros tok Hcount Hslash Hcomma.
    rewrite parseField_token; [by apply Hmany|apply Contains_Count; lia|done..].
  - intros field part Hslash Hin Hcount. split; [by apply Hmany|].
    destruct (parseField field minVal maxVal nameToNumber) as [values|]
      eqn:Hok; [|done].
    destruct (Hlist field values Hslash Hok part Hin) as (rv & Hrv & _);
      [apply Contains_Count; lia|].
    rewrite (Hmany part Hcount) in Hrv. done.
Qed.

End ParserFacts.

(** ** Matching an instant *)

Lemma contains_elem_of (list : list Z) (value : Z) :
  contains list value = true <-> value ∈ list.
Proof.
  induction list as [|v rest IH]; simpl.
  - split; [done|]. by intros ?%elem_of_nil.
  - rewrite elem_of_cons. destruct (Z.eqb_spec v value); [|rewrite IH];
      intuition congruence.
Qed.

Lemma Weekday_range (t : time.Time) : 0 <= time.Weekday t <= 6.
Proof. unfold time.Weekday. pose proof (Z.mod_pos_bound (time.days t + 4) 7). lia. Qed.

(** The detour of [isTimeMatching] through 7 for Sunday gives the weekday
    back. *)
Lemma weekday_adjust (w : Z) :
  0 <= w <= 6 -> Z.rem (if w =? 0 then 7 else w) 7 = w.
Proof.
  intros Hw. destruct (Z.eqb_spec w 0) as [->|]; [done|].
  apply Z.rem_small. lia.
Qed.

(** C1: an instant matches an expression exactly when its second, minute,
    hour, day of the month, month and weekday (Sunday is 0, Saturday 6) are
    each in the set of their field; the expression [30 15 14 1 1 *] matches
    14:15:30 UTC on January 1, 2023, a Sunday, and not the next second. *)
Theorem isTimeMatching_iff :
  (forall (expr : CronExpression) (t : time.Time),
      0 <= time.Weekday t <= 6
      /\ (isTimeMatching expr t = true <->
          time.Second t ∈ Seconds expr
          /\ time.Minute t ∈ Minutes expr
          /\ time.Hour t ∈ Hours expr
          /\ time.Day t ∈ DayOfMonth expr
          /\ time.Month t ∈ Month expr
          /\ time.Weekday t ∈ DayOfWeek expr))
  /\ (exists expr,
        @ParseCronExpression asciiCase "30 15 14 1 1 *" = Ok expr
        /\ time.Weekday (time.Date 2023 1 1 14 15 30 0) = 0
        /\ isTimeMatching expr (time.Date 2023 1 1 14 15 30 0) = true
        /\ isTimeMatching expr (time.Date 2023 1 1 14 15 31 0) = false).
Proof.
  split.
  - intros expr t. split; [apply Weekday_range|].
    unfold isTimeMatching. cbv zeta.
    rewrite (weekday_adjust _ (Weekday_range t)).
    rewrite <- !contains_elem_of.
    destruct (contains (Seconds expr) _), (contains (Minutes expr) _),
      (contains (Hours expr) _), (contains (DayOfMonth expr) _),
      (contains (Month expr) _), (contains (DayOfWeek expr) _); simpl;
      intuition congruence.
  - eexists. split; [by vm_compute|]. by vm_compute.
Qed.

(** ** The next run *)

Lemma Add_to_next_second (fromTime : time.Time) :
  time.wf fromTime ->
  time.Add fromTime (time.Second_ - time.Nanosecond fromTime)
  = secondAfter fromTime 0.
Proof.
  unfold time.wf, time.Add, time.Nanosecond, secondAfter.
  change time.Second_ with 1000000000. intros Hns.
  destruct (Z.eq_dec (time.nsec fromTime) 0) as [H0|H0].
  - rewrite H0, Z.sub_0_r, Z.quot_same, Z.rem_same by lia. simpl.
    f_equal; lia.
  - rewrite Z.quot_small, Z.rem_small by lia.
    destruct (Z.geb_spec (time.nsec fromTime
                          + (1000000000 - time.nsec fromTime)) 1000000000);
      [|lia].
    f_equal; lia.
Qed.

Lemma Add_Second (fromTime : time.Time) (k : Z) :
  time.Add (secondAfter fromTime k) time.Second_
  = secondAfter fromTime (k + 1).
Proof.
  unfold time.Add, secondAfter. cbn [time.nsec time.unixSec time.zone].
  change (Z.quot time.Second_ 1000000000) with 1.
  change (Z.rem time.Second_ 1000000000) with 0.
  simpl. f_equal; lia.
Qed.

Lemma nextRunLoop_none n expr fromTime k :
  (forall j, 0 <= j < Z.of_nat n ->
             isTimeMatching expr (secondAfter fromTime (k + j)) = false) ->
  nextRunLoop n expr (secondAfter fromTime k) = time.zero.
Proof.
  revert k. induction n as [|n IH]; intros k Hnone; simpl; [done|].
  specialize (Hnone 0 ltac:(lia)) as H0. rewrite Z.add_0_r in H0.
  rewrite H0, Add_Second. apply IH. intros j Hj.
  replace (k + 1 + j) with (k + (j + 1)) by lia. apply Hnone. lia.
Qed.

Lemma nextRunLoop_first n expr fromTime k i :
  0 <= i < Z.of_nat n ->
  isTimeMatching expr (secondAfter fromTime (k + i)) = true ->
  (forall j, 0 <= j < i ->
             isTimeMatching expr (secondAfter fromTime (k + j)) = false) ->
  nextRunLoop n expr (secondAfter fromTime k) = secondAfter fromTime (k + i).
Proof.
  revert k i. induction n as [|n IH]; intros k i Hi Hmatch Hnone; simpl;
    [lia|].
  destruct (Z.eq_dec i 0) as [->|Hne].
  - rewrite Z.add_0_r in *. by rewrite Hmatch.
  - specialize (Hnone 0 ltac:(lia)) as H0. rewrite Z.add_0_r in H0.
    rewrite H0, Add_Second.
    replace (k + i) with (k + 1 + (i - 1)) in * by lia.
    apply IH; [lia|done|]. intros j Hj.
    replace (k + 1 + j) with (k + (j + 1)) by lia. apply Hnone. lia.
Qed.

(** The loop returns the zero instant or one of its candidates. *)
Lemma nextRunLoop_cases n expr fromTime k :
  nextRunLoop n expr (secondAfter fromTime k) = time.zero
  \/ exists i, 0 <= i < Z.of_nat n
               /\ nextRunLoop n expr (secondAfter fromTime k)
                  = secondAfter fromTime (k + i).
Proof.
  revert k. induction n as [|n IH]; intros k; simpl; [by left|].
  destruct (isTimeMatching expr (secondAfter fromTime k)).
  - right. exists 0. rewrite Z.add_0_r. split; [lia|done].
  - rewrite Add_Second. destruct (IH (k + 1)) as [H|(i & Hi & H)];
      [by left|].
    right. exists (i + 1). split; [lia|]. rewrite H. f_equal. lia.
Qed.

(** C2: [nextRunTime] starts at the beginning of the second that follows
    [fromTime] and tries one candidate a second, 1000000 of them: it returns
    the first candidate that matches, and the zero instant when none of the
    1000000 does. *)
Theorem nextRunTime_first_match (expr : CronExpression) (fromTime : time.Time) :
  time.wf fromTime ->
  time.Add fromTime (time.Second_ - time.Nanosecond fromTime)
  = secondAfter fromTime 0
  /\ (forall k, time.Add (secondAfter fromTime k) time.Second_
               = secondAfter fromTime (k + 1))
  /\ (forall k,
        0 <= k < 1000000 ->
        isTimeMatching expr (secondAfter fromTime k) = true ->
        (forall j, 0 <= j < k ->
                   isTimeMatching expr (secondAfter fromTime j) = false) ->
        nextRunTime expr fromTime = secondAfter fromTime k)
  /\ ((forall k, 0 <= k < 1000000 ->
                 isTimeMatching expr (secondAfter fromTime k) = false) ->
      nextRunTime expr fromTime = time.zero).
Proof.
  intros Hwf. split; [by apply Add_to_next_second|].
  split; [apply Add_Second|].
  unfold nextRunTime. cbv zeta. rewrite (Add_to_next_second _ Hwf).
  unfold maxIterations. split.
  - intros k Hk Hmatch Hnone.
    rewrite (nextRunLoop_first _ expr fromTime 0 k); [done|lia|done|done].
  - intros Hnone. apply nextRunLoop_none. intros j Hj. apply Hnone. lia.
Qed.

(** ** The scheduler *)

Section SchedulerFacts.
Context {conv : CaseConv} {Func : Type}.
Implicit Types (c : CronScheduler Func) (job : Job Func).

(** C6: [AddJob] parses the expression; when it parses, the scheduler gains
    exactly one job, the parsed schedule with the task, at the end of its
    jobs, and no error is returned; when it does not, the error of the
    parser is returned as it is and the scheduler is left as it was. *)
Theorem AddJob_appends_or_fails c (expr : string) (task : Func) :
  match ParseCronExpression expr with
  | Ok schedule =>
      AddJob c expr task
      = ({| Jobs := Jobs c ++ [{| Schedule := schedule; Task := task |}];
            running := running c |}, None)
      /\ List.length (Jobs (AddJob c expr task).1)
         = S (List.length (Jobs c))
  | Err err => AddJob c expr task = (c, Some err)
  end.
Proof.
  unfold AddJob. destruct (ParseCronExpression expr) as [schedule|err];
    [|done].
  split; [done|]. simpl. rewrite length_app. simpl. lia.
Qed.

(** C7: [RemoveJob] fails with the index error and leaves the scheduler as
    it was when the index is negative or not below the number of jobs;
    otherwise it returns no error, the jobs before the index stay where they
    are, each later job moves down by one, there is one job less and the
    running flag is as before. *)
Theorem RemoveJob_shifts c (index : Z) :
  (index < 0 \/ Z.of_nat (List.length (Jobs c)) <= index ->
   RemoveJob c index = (c, Some ErrIndexOutOfRange))
  /\ (0 <= index < Z.of_nat (List.length (Jobs c)) ->
      let c' := (RemoveJob c index).1 in
      (RemoveJob c index).2 = None
      /\ running c' = running c
      /\ S (List.length (Jobs c')) = List.length (Jobs c)
      /\ (forall i : nat, Z.of_nat i < index -> Jobs c' !! i = Jobs c !! i)
      /\ (forall i : nat, index <= Z.of_nat i ->
                          Jobs c' !! i = Jobs c !! S i)).
Proof.
  unfold RemoveJob. split.
  - intros Hout.
    destruct (Z.ltb_spec index 0), (Z.geb_spec index
      (Z.of_nat (List.length (Jobs c)))); simpl; try done; lia.
  - intros Hin.
    destruct (Z.ltb_spec index 0), (Z.geb_spec index
      (Z.of_nat (List.length (Jobs c)))); simpl; try lia.
    replace (Z.to_nat (index + 1)) with (S (Z.to_nat index)) by lia.
    rewrite <- delete_take_drop.
    split; [done|]. split; [done|]. split; [|split].
    + rewrite length_delete; [lia|]. apply lookup_lt_is_Some. lia.
    + intros i Hi. apply list_lookup_delete_lt. lia.
    + intros i Hi. apply list_lookup_delete_ge. lia.
Qed.

(** *** The sleep of the loop *)

Lemma minDurationLoop_min (jobs : list (Job Func)) now (minDuration : Z) :
  let d := minDurationLoop jobs now minDuration in
  d <= minDuration
  /\ (forall job, job ∈ jobs -> hasNext now job = true ->
                  d <= untilNext now job)
  /\ (d = minDuration
      \/ exists job, job ∈ jobs /\ hasNext now job = true
                     /\ d = untilNext now job).
Proof.
  revert minDuration. induction jobs as [|job rest IH]; intros m; simpl.
  - split; [lia|]. split; [|by left]. by intros job ?%elem_of_nil.
  - unfold hasNext, untilNext in *.
    destruct (time.IsZero (nextRunTime (Schedule job) now)) eqn:Hz.
    + destruct (IH m) as (Hle & Hall & Hex). split; [done|]. split.
      * intros j [->|Hj]%elem_of_cons Hnext; [by rewrite Hz in Hnext|].
        by apply Hall.
      * destruct Hex as [?|(j & Hj & Hn & Hd)]; [by left|].
        right. exists j. by rewrite elem_of_cons; auto.
    + destruct (Z.ltb_spec (time.Sub (nextRunTime (Schedule job) now) now) m)
        as [Hlt|Hge].
      * destruct (IH (time.Sub (nextRunTime (Schedule job) now) now))
          as (Hle & Hall & Hex).
        split; [lia|]. split.
        -- intros j [->|Hj]%elem_of_cons Hnext; [done|]. by apply Hall.
        -- right. destruct Hex as [Heq|(j & Hj & Hn & Hd)].
           ++ exists job. rewrite elem_of_cons, Hz. auto.
           ++ exists j. rewrite elem_of_cons. auto.
      * destruct (IH m) as (Hle & Hall & Hex). split; [done|]. split.
        -- intros j [->|Hj]%elem_of_cons Hnext; [lia|]. by apply Hall.
        -- destruct Hex as [?|(j & Hj & Hn & Hd)]; [by left|].
           right. exists j. by rewrite elem_of_cons; auto.
Qed.

(** A next run that was found is at most 1000000 seconds away, which is
    less than the year the loop starts from. *)
Lemma untilNext_bound now job :
  time.wf now -> hasNext now job = true ->
  0 < untilNext now job <= 1000000 * time.Second_
  /\ untilNext now job < oneYear.
Proof.
  unfold hasNext, untilNext, nextRunTime, time.wf. cbv zeta.
  intros Hwf. rewrite (Add_to_next_second _ Hwf).
  destruct (nextRunLoop_cases maxIterations (Schedule job) now 0)
    as [->|(i & Hi & ->)]; [done|].
  intros _. unfold maxIterations in Hi.
  unfold time.Sub, secondAfter. simpl.
  change time.Second_ with 1000000000.
  change time.minDuration with (-9223372036854775808).
  change time.maxDuration with 9223372036854775807.
  change oneYear with 31536000000000000.
  destruct (Z.ltb_spec ((time.unixSec now + 1 + (0 + i) - time.unixSec now)
                        * 1000000000 + (0 - time.nsec now))
                       (-9223372036854775808)); [lia|].
  destruct (Z.gtb_spec ((time.unixSec now + 1 + (0 + i) - time.unixSec now)
                        * 1000000000 + (0 - time.nsec now))
                       9223372036854775807); lia.
Qed.

(** C9: the sleep [timeUntilNextJob] computes is the smallest of the
    durations from [now] to the next runs of the jobs, the jobs whose next
    run is the zero instant being left out; it is the year of 365 days when
    there is no job or all are left out. *)
Theorem timeUntilNextJob_min c (now : time.Time) :
  time.wf now ->
  ((forall job, job ∈ Jobs c -> hasNext now job = false) ->
   timeUntilNextJob c now = 365 * 24 * 3600 * 1000000000)
  /\ ((exists job, job ∈ Jobs c /\ hasNext now job = true) ->
      (exists job, job ∈ Jobs c /\ hasNext now job = true
                   /\ timeUntilNextJob c now = untilNext now job)
      /\ (forall job, job ∈ Jobs c -> hasNext now job = true ->
                      timeUntilNextJob c now <= untilNext now job)).
Proof.
  intros Hwf. unfold timeUntilNextJob. cbv zeta. fold oneYear.
  destruct (minDurationLoop_min (Jobs c) now oneYear) as (Hle & Hall & Hex).
  split.
  - intros Hnone. destruct Hex as [->|(job & Hin & Hnext & _)]; [done|].
    by rewrite (Hnone job Hin) in Hnext.
  - intros (job & Hin & Hnext). split; [|done].
    destruct Hex as [Heq|Hex]; [|done].
    specialize (Hall job Hin Hnext).
    destruct (untilNext_bound now job Hwf Hnext) as [_ Hlt]. lia.
Qed.

End SchedulerFacts.

(** * The theorems at concrete inputs *)

(** Five fields are one too few. *)
Lemma ParseCronExpression_field_count_witness :
  List.length (strings.Fields "* * * * *") <> 6%nat
  /\ @ParseCronExpression asciiCase "* * * * *" = Err (ErrFieldCount 5).
Proof.
  assert (H : List.length (strings.Fields "* * * * *") <> 6%nat)
    by (vm_compute; lia).
  split; [exact H|].
  exact (@ParseCronExpression_field_count asciiCase "* * * * *" H).
Defined.

(** Every fifteenth second. *)
Lemma parseField_step_witness :
  strings.Split "*/15" "/" = ["*"; "15"]
  /\ @parseField asciiCase "*/15" 0 59 ∅ = Ok [0; 15; 30; 45].
Proof.
  split; [reflexivity|].
  rewrite (@parseField_step asciiCase "*/15" "*" "15" 0 59 ∅ eq_refl).
  vm_compute. reflexivity.
Defined.

(** The step of [60/0] is no positive integer, yet the seconds field fails
    with the error of its base, 60 being out of range: the base is parsed
    before the step is looked at. *)
Lemma parseField_step_base_error_first :
  strings.Split "60/0" "/" = ["60"; "0"]
  /\ strconv.Atoi "0" = Some 0
  /\ @parseField asciiCase "60/0" 0 59 ∅ = Err (ErrOutOfRange 60)
  /\ ~ (exists e, @parseField asciiCase "60/0" 0 59 ∅ = Err e
                  /\ isStepError e = true).
Proof.
  assert (H : @parseField asciiCase "60/0" 0 59 ∅ = Err (ErrOutOfRange 60))
    by (vm_compute; reflexivity).
  repeat split; try reflexivity; try exact H.
  intros (e & He & Hstep). rewrite H in He. injection He as <-.
  discriminate Hstep.
Qed.

(** Friday to Monday, by the names of the days. *)
Lemma parseRange_wraps_witness :
  exists values,
    @parseRange asciiCase "Fri-Mon" 0 6 dayNameToNumber = Ok values
    /\ values = [5; 6; 0; 1]
    /\ forall v, v ∈ values <-> 5 <= v <= 6 \/ 0 <= v <= 1.
Proof.
  apply (proj1 (@parseRange_wraps asciiCase) "Fri-Mon" "Fri" "Mon" 0 6
           dayNameToNumber 5 1).
  - reflexivity.
  - vm_compute. reflexivity.
  - vm_compute. reflexivity.
  - lia.
Defined.

(** [-5] and [1-2-3] as weekday fields. *)
Lemma dash_token_is_range_witness :
  dayNameToNumber !! @Title asciiCase (@ToLower asciiCase "") = None
  /\ @parseField asciiCase "-5" 0 6 dayNameToNumber
     = Err (ErrInvalidRangeStart "")
  /\ @parseField asciiCase "1-2-3" 0 6 dayNameToNumber
     = Err (ErrInvalidRange "1-2-3")
  /\ @parseField asciiCase "Mon-Wed" 0 6 dayNameToNumber
     = @parseRange asciiCase "Mon-Wed" 0 6 dayNameToNumber.
Proof.
  assert (Hname : dayNameToNumber
                    !! @Title asciiCase (@ToLower asciiCase "") = None)
    by (vm_compute; reflexivity).
  destruct (@dash_token_is_range asciiCase 0 6 dayNameToNumber)
    as (Htok & _ & Hneg & Hmany & _).
  split; [exact Hname|]. split; [exact (proj2 (Hneg Hname))|]. split.
  - apply Hmany; [vm_compute; lia|reflexivity|reflexivity].
  - apply Htok; reflexivity.
Defined.

(** Half a microsecond past 14:15:30: an expression of six stars runs at
    14:15:31, one whose seconds are [5/7], the empty set, never. *)
Lemma nextRunTime_first_match_witness :
  time.wf (time.Date 2023 1 1 14 15 30 500)
  /\ (exists expr,
        @ParseCronExpression asciiCase "* * * * * *" = Ok expr
        /\ nextRunTime expr (time.Date 2023 1 1 14 15 30 500)
           = time.Date 2023 1 1 14 15 31 0)
  /\ (exists expr,
        @ParseCronExpression asciiCase "5/7 * * * * *" = Ok expr
        /\ nextRunTime expr (time.Date 2023 1 1 14 15 30 500) = time.zero).
Proof.
  assert (Hwf : time.wf (time.Date 2023 1 1 14 15 30 500))
    by (unfold time.wf; simpl; lia).
  split; [exact Hwf|]. split.
  - eexists. split; [vm_compute; reflexivity|].
    destruct (nextRunTime_first_match
                {| Seconds := seqZ 0 60; Minutes := seqZ 0 60;
                   Hours := seqZ 0 24; DayOfMonth := seqZ 1 31;
                   Month := seqZ 1 12; DayOfWeek := seqZ 0 7 |}
                (time.Date 2023 1 1 14 15 30 500) Hwf)
      as (_ & _ & Hfirst & _).
    apply (Hfirst 0); [lia|vm_compute; reflexivity|intros j Hj; lia].
  - eexists. split; [vm_compute; reflexivity|].
    destruct (nextRunTime_first_match
                {| Seconds := []; Minutes := seqZ 0 60;
                   Hours := seqZ 0 24; DayOfMonth := seqZ 1 31;
                   Month := seqZ 1 12; DayOfWeek := seqZ 0 7 |}
                (time.Date 2023 1 1 14 15 30 500) Hwf)
      as (_ & _ & _ & Hnone).
    apply Hnone. intros k Hk. reflexivity.
Defined.

(** Three jobs told apart by their tasks; removing the one at index 1. *)
Lemma RemoveJob_shifts_witness :
  let job n := {| Schedule := {| Seconds := [n]; Minutes := []; Hours := [];
                                DayOfMonth := []; Month := [];
                                DayOfWeek := [] |};
                  Task := n |} in
  let c := {| Jobs := [job 10; job 11; job 12]; running := true |} in
  RemoveJob c 3 = (c, Some ErrIndexOutOfRange)
  /\ RemoveJob c (-1) = (c, Some ErrIndexOutOfRange)
  /\ (RemoveJob c 1).2 = None
  /\ Jobs (RemoveJob c 1).1 !! 0%nat = Some (job 10)
  /\ Jobs (RemoveJob c 1).1 !! 1%nat = Some (job 12).
Proof.
  intros job c.
  destruct (RemoveJob_shifts c 3) as [Hout3 _].
  destruct (RemoveJob_shifts c (-1)) as [Houtm _].
  destruct (RemoveJob_shifts c 1) as [_ Hin].
  split; [apply Hout3; simpl; lia|]. split; [apply Houtm; simpl; lia|].
  destruct Hin as (Herr & _ & _ & Hbefore & Hafter); [simpl; lia|].
  split; [exact Herr|]. split.
  - rewrite (Hbefore 0%nat); [reflexivity|lia].
  - rewrite (Hafter 1%nat); [reflexivity|lia].
Defined.

(** With no job the loop sleeps a year; with a job of six stars, until the
    next second. *)
Lemma timeUntilNextJob_min_witness :
  let now := time.Date 2023 1 1 14 15 30 500 in
  let every := {| Schedule := {| Seconds := seqZ 0 60; Minutes := seqZ 0 60;
                                  Hours := seqZ 0 24; DayOfMonth := seqZ 1 31;
                                  Month := seqZ 1 12; DayOfWeek := seqZ 0 7 |};
                  Task := tt |} in
  time.wf now
  /\ timeUntilNextJob (@NewCronScheduler unit) now = 31536000000000000
  /\ timeUntilNextJob {| Jobs := [every]; running := true |} now
     = 999999500.
Proof.
  intros now every.
  assert (Hwf : time.wf now) by (unfold time.wf; simpl; lia).
  split; [exact Hwf|]. split.
  - apply (proj1 (timeUntilNextJob_min (@NewCronScheduler unit) now Hwf)).
    intros job Hin. simpl in Hin. by apply elem_of_nil in Hin.
  - destruct (proj2 (timeUntilNextJob_min
                       {| Jobs := [every]; running := true |} now Hwf))
      as [(job & Hin & _ & Heq) _].
    + exists every. split; [simpl; apply list_elem_of_here|].
      vm_compute. reflexivity.
    + simpl in Hin. apply list_elem_of_singleton in Hin. subst job.
      rewrite Heq. vm_compute. reflexivity.
Defined.

(** * Further properties of the parser *)

Lemma Split_cons (s : string) (sep : ascii) :
  exists p ps, strings.Split s sep = p :: ps.
Proof.
  destruct s as [|c r]; simpl; [by eexists _, _|].
  destruct (Ascii.eqb c sep); [by eexists _, _|].
  destruct (strings.Split r sep); by eexists _, _.
Qed.

(** Splitting at a separator put between two strings. *)
Lemma Split_app (a b : string) (sep : ascii) :
  strings.Split (a ++ String sep b) sep
  = (removelast (strings.Split a sep)
     ++ [List.last (strings.Split a sep) ""]
     ++ strings.Split b sep)%list.
Proof.
  induction a as [|c r IH]; simpl.
  - by rewrite Ascii.eqb_refl.
  - destruct (Ascii.eqb c sep) eqn:Hc.
    + rewrite IH. destruct (Split_cons r sep) as (p & ps & ->). done.
    + rewrite IH. destruct (Split_cons r sep) as (p & ps & ->).
      destruct ps; done.
Qed.

Lemma Split_app_whole (a b : string) (sep : ascii) :
  strings.Split (a ++ String sep b) sep
  = (strings.Split a sep ++ strings.Split b sep)%list.
Proof.
  rewrite Split_app. destruct (Split_cons a sep) as (p & ps & ->).
  rewrite app_assoc. f_equal.
  symmetry. apply (app_removelast_last (A:=string)). done.
Qed.

Lemma Contains_app (a b : string) (sep : ascii) :
  strings.Contains (a ++ b) sep
  = strings.Contains a sep || strings.Contains b sep.
Proof.
  induction a as [|c r IH]; simpl; [done|]. by rewrite IH, orb_assoc.
Qed.

Lemma Count_app (a b : string) (sep : ascii) :
  strings.Count (a ++ b) sep
  = (strings.Count a sep + strings.Count b sep)%nat.
Proof. induction a as [|c r IH]; simpl; [done|]. rewrite IH. lia. Qed.

#[local] Open Scope list_scope.

Section MoreParserFacts.
Context {conv : CaseConv}.
Implicit Types (field part base : string) (minVal maxVal : Z).
Implicit Types (nameToNumber : gmap string Z).

(** A field split in two at its slash is a step of its first half. *)
Lemma parseField_slash field base stepPart minVal maxVal nameToNumber :
  strings.Split field "/" = [base; stepPart] ->
  parseField field minVal maxVal nameToNumber =
  match parseField base minVal maxVal nameToNumber with
  | Err e => Err e
  | Ok baseValues => stepValues baseValues stepPart minVal
  end.
Proof.
  intros Hsplit. destruct (Split_two_step _ _ _ Hsplit) as [Hstar Hslash].
  rewrite parseField_eq, Hstar, Hslash. unfold parseStepField.
  by rewrite Hsplit.
Qed.

(** The loop over the items starts from what it is given. *)
Lemma parseParts_acc parts minVal maxVal nameToNumber values :
  parseParts parts minVal maxVal nameToNumber values =
  match parseParts parts minVal maxVal nameToNumber [] with
  | Ok more => Ok (values ++ more)%list
  | Err e => Err e
  end.
Proof.
  revert values. induction parts as [|part rest IH]; intros values; simpl.
  - by rewrite app_nil_r.
  - destruct (strings.Contains part "-").
    + destruct (parseRange part minVal maxVal nameToNumber) as [rv|];
        [|done].
      rewrite (IH (values ++ rv)), (IH rv).
      destruct (parseParts rest _ _ _ []); [|done]. by rewrite app_assoc.
    + destruct (parseValue part minVal maxVal nameToNumber) as [n|]; [|done].
      rewrite (IH (values ++ [n])), (IH [n]).
      destruct (parseParts rest _ _ _ []); [|done]. by rewrite app_assoc.
Qed.

Lemma parseParts_cons part rest minVal maxVal nameToNumber :
  parseParts (part :: rest) minVal maxVal nameToNumber [] =
  match parsePart part minVal maxVal nameToNumber with
  | Err e => Err e
  | Ok vs =>
      match parseParts rest minVal maxVal nameToNumber [] with
      | Ok more => Ok (vs ++ more)%list
      | Err e => Err e
      end
  end.
Proof.
  simpl. unfold parsePart. destruct (strings.Contains part "-").
  - destruct (parseRange part minVal maxVal nameToNumber); [|done].
    apply parseParts_acc.
  - destruct (parseValue part minVal maxVal nameToNumber); [|done].
    apply parseParts_acc.
Qed.

Lemma parseParts_Forall2 parts minVal maxVal nameToNumber values :
  parseParts parts minVal maxVal nameToNumber [] = Ok values <->
  exists sets,
    Forall2 (fun part vs => parsePart part minVal maxVal nameToNumber = Ok vs)
            parts sets
    /\ values = List.concat sets.
Proof.
  revert values. induction parts as [|part rest IH]; intros values.
  - simpl. split.
    + intros [= <-]. exists []. split; [constructor|done].
    + intros (sets & Hall & ->). inversion Hall. done.
  - rewrite parseParts_cons. split.
    + destruct (parsePart part minVal maxVal nameToNumber) as [vs|] eqn:Hp;
        [|done].
      destruct (parseParts rest minVal maxVal nameToNumber []) as [more|]
        eqn:Hr; [|done].
      intros [= <-]. destruct (proj1 (IH more) eq_refl) as (sets & Hall & ->).
      exists (vs :: sets). split; [by constructor|done].
    + intros (sets & Hall & ->). inversion Hall as [|? vs ? sets' Hp Hrest];
        subst.
      rewrite Hp. rewrite (proj2 (IH (List.concat sets'))); [done|].
      by exists sets'.
Qed.

End MoreParserFacts.

Section ParserExtras.
Context {conv : CaseConv}.
Implicit Types (field part base : string) (minVal maxVal : Z).
Implicit Types (nameToNumber : gmap string Z).

(** X1: [ParseCronExpression] succeeds with an expression exactly when the
    input has six fields and the six calls of [parseField] succeed with the
    six sets of the expression. *)
Theorem ParseCronExpression_iff (expr : string) (e : CronExpression) :
  ParseCronExpression expr = Ok e <-> parsedFrom (strings.Fields expr) e.
Proof.
  split.
  - intros H. pose proof (ParseCronExpression_cases expr) as Hc.
    by rewrite H in Hc.
  - intros (sec & min & hour & dom & mon & dow & Hf & H0 & H1 & H2 & H3 & H4
            & H5).
    unfold ParseCronExpression. cbv zeta. rewrite Hf. simpl.
    rewrite H0, H1, H2, H3, H4, H5. by destruct e.
Qed.

(** X2: with six fields, the fields are parsed from left to right and the
    error returned is the error of the first field that fails. *)
Theorem ParseCronExpression_first_error (expr : string) (i : nat)
    (err : error) :
  List.length (strings.Fields expr) = 6%nat ->
  (forall j, (j < i)%nat -> isOk (parseNth (strings.Fields expr) j) = true) ->
  parseNth (strings.Fields expr) i = Err err ->
  ParseCronExpression expr = Err err.
Proof.
  intros Hlen Hbefore Hi. unfold ParseCronExpression. cbv zeta.
  rewrite Hlen. simpl.
  assert (Hok : forall j, (j < i)%nat -> exists vs,
             parseNth (strings.Fields expr) j = Ok vs).
  { intros j Hj. specialize (Hbefore j Hj).
    destruct (parseNth (strings.Fields expr) j); [by eexists|done]. }
  unfold parseNth in Hi, Hok.
  destruct i as [|[|[|[|[|[|i]]]]]]; simpl in Hi; [..|done].
  all: repeat match goal with
         | |- context [parseField (_ !!! ?j) _ _ _] =>
             first [ rewrite Hi; reflexivity
                   | let vs := fresh "vs" in
                     let H := fresh "H" in
                     destruct (Hok j ltac:(lia)) as [vs H];
                     simpl in H; rewrite H ]
         end.
Qed.

(** X3: a star with a step: [*/step] with a positive step gives exactly the
    numbers between the bounds that are a multiple of the step away from the
    lower bound. *)
Theorem parseField_star_step (stepPart : string) (step : Z) minVal maxVal
    nameToNumber :
  strings.Contains stepPart "/" = false ->
  strconv.Atoi stepPart = Some step ->
  0 < step ->
  exists values,
    parseField ("*/" ++ stepPart)%string minVal maxVal nameToNumber = Ok values
    /\ forall v, v ∈ values <->
                 minVal <= v <= maxVal /\ (v - minVal) mod step = 0.
Proof.
  intros Hslash Hatoi Hpos.
  assert (Hsplit : strings.Split ("*/" ++ stepPart)%string "/"
                   = ["*"%string; stepPart]).
  { change ("*/" ++ stepPart)%string with ("*" ++ String "/" stepPart)%string.
    rewrite Split_app_whole. by rewrite (Contains_false_Split _ _ Hslash). }
  rewrite (parseField_slash _ _ _ _ _ _ Hsplit), parseField_eq. simpl.
  unfold stepValues. rewrite Hatoi.
  destruct (Z.leb_spec step 0); [lia|].
  eexists. split; [done|]. intros v.
  rewrite list_elem_of_filter. unfold appendUpTo. simpl.
  rewrite elem_of_seqZ, rem_mod_zero by done. lia.
Qed.

Lemma filter_rem_one (minVal : Z) (values : list Z) :
  filter (fun val => Z.rem (val - minVal) 1 = 0) values = values.
Proof.
  induction values as [|v rest IH]; [done|].
  rewrite filter_cons, IH. destruct (decide _) as [|Hne]; [done|].
  by rewrite Z.rem_1_r in Hne.
Qed.

(** X4: a step of 1 keeps everything: [base/1] parses as [base] does, to the
    same set or the same error. *)
Theorem parseField_step_one base minVal maxVal nameToNumber :
  strings.Contains base "/" = false ->
  parseField (base ++ "/1")%string minVal maxVal nameToNumber
  = parseField base minVal maxVal nameToNumber.
Proof.
  intros Hslash.
  assert (Hsplit : strings.Split (base ++ "/1")%string "/"
                   = [base; "1"%string]).
  { rewrite Split_app_whole. by rewrite (Contains_false_Split _ _ Hslash). }
  rewrite (parseField_slash _ _ _ _ _ _ Hsplit).
  destruct (parseField base minVal maxVal nameToNumber) as [values|]; [|done].
  unfold stepValues. simpl. by rewrite filter_rem_one.
Qed.

(** X5: a field with two slashes or more is refused as an invalid step
    field, whatever stands between the slashes. *)
Theorem parseField_many_slashes field minVal maxVal nameToNumber :
  (2 <= strings.Count field "/")%nat ->
  parseField field minVal maxVal nameToNumber
  = Err (ErrInvalidStepField field).
Proof.
  intros Hcount. rewrite parseField_eq.
  destruct (String.eqb_spec field "*") as [->|_]; [simpl in Hcount; lia|].
  rewrite (proj2 (Contains_Count field "/")) by lia.
  unfold parseStepField. pose proof (Split_length field "/") as Hlen.
  destruct (strings.Split field "/") as [|a [|b [|? ?]]]; simpl in Hlen;
    try done; lia.
Qed.

(** X6: a field that is neither a star nor a step is a list: it parses
    exactly when each of its comma separated items parses, a range if the
    item has a dash and a single value if not, and its values are those of
    the items one after the other, repeats included. *)
Theorem parseField_list field minVal maxVal nameToNumber (values : list Z) :
  field <> "*"%string ->
  strings.Contains field "/" = false ->
  parseField field minVal maxVal nameToNumber = Ok values <->
  exists sets,
    Forall2 (fun part vs => parsePart part minVal maxVal nameToNumber = Ok vs)
            (strings.Split field ",") sets
    /\ values = List.concat sets.
Proof.
  intros Hstar Hslash. rewrite parseField_eq, Hslash.
  destruct (String.eqb_spec field "*"); [done|].
  apply parseParts_Forall2.
Qed.

(** X7: an item of a list that has no dash, is no name of the table and is
    no number between the bounds makes the whole field fail: so do an empty
    item, as a comma at the end leaves one, and a star among the items. *)
Theorem parseField_bad_item field part minVal maxVal nameToNumber :
  field <> "*"%string ->
  strings.Contains field "/" = false ->
  part ∈ strings.Split field "," ->
  strings.Contains part "-" = false ->
  nameToNumber !! Title (ToLower part) = None ->
  (forall num, strconv.Atoi part = Some num -> num < minVal \/ maxVal < num) ->
  isOk (parseField field minVal maxVal nameToNumber) = false.
Proof.
  intros Hstar Hslash Hin Hdash Hname Hnum.
  destruct (parseField field minVal maxVal nameToNumber) as [values|] eqn:Hok;
    [|done].
  apply parseField_list in Hok as (sets & Hall & _); [|done..].
  apply list_elem_of_lookup in Hin as [i Hi].
  destruct (Forall2_lookup_l _ _ _ _ _ Hall Hi) as (vs & _ & Hpart).
  unfold parsePart, parseValue in Hpart. rewrite Hdash, Hname in Hpart.
  destruct (strconv.Atoi part) as [num|]; [|done].
  destruct (Hnum num eq_refl).
  - destruct (Z.ltb_spec num minVal); [done|lia].
  - destruct (Z.ltb_spec num minVal); [done|].
    destruct (Z.gtb_spec num maxVal); [done|lia].
Qed.

(** X8: with a name table within the bounds, a range that parses is never
    empty and never has the same number twice. *)
Theorem parseRange_nonempty_NoDup part minVal maxVal nameToNumber
    (values : list Z) :
  tableWithin minVal maxVal nameToNumber ->
  parseRange part minVal maxVal nameToNumber = Ok values ->
  values <> [] /\ NoDup values.
Proof.
  intros Htab. unfold parseRange.
  destruct (strings.Split part "-") as [|a [|b [|? ?]]]; try done.
  destruct (parseValue a minVal maxVal nameToNumber) as [start|] eqn:Ha;
    [|done].
  destruct (parseValue b minVal maxVal nameToNumber) as [stop0|] eqn:Hb;
    [|done].
  apply (parseValue_within _ _ _ _ _ Htab) in Ha, Hb. unfold within in *.
  unfold appendUpTo. simpl.
  destruct (Z.gtb_spec start stop0) as [Hgt|Hle]; intros [= <-]; split.
  - intros Hnil%(f_equal List.length).
    rewrite length_app, !length_seqZ in Hnil. simpl in Hnil. lia.
  - apply NoDup_app. split; [apply NoDup_seqZ|]. split; [|apply NoDup_seqZ].
    intros v Hv%elem_of_seqZ Hv'%elem_of_seqZ. lia.
  - intros Hnil%(f_equal List.length).
    rewrite length_seqZ in Hnil. simpl in Hnil. lia.
  - apply NoDup_seqZ.
Qed.

(** X9: a range whose start is not above its end gives the numbers from the
    start to the end, in ascending order: the number at index [i] is the
    start plus [i]. *)
Theorem parseRange_ascending part startPart endPart minVal maxVal
    nameToNumber (start stop0 : Z) :
  strings.Split part "-" = [startPart; endPart] ->
  parseValue startPart minVal maxVal nameToNumber = Ok start ->
  parseValue endPart minVal maxVal nameToNumber = Ok stop0 ->
  start <= stop0 ->
  exists values,
    parseRange part minVal maxVal nameToNumber = Ok values
    /\ List.length values = Z.to_nat (stop0 - start + 1)
    /\ (forall (i : nat) v, values !! i = Some v <->
                            v = start + Z.of_nat i /\ start + Z.of_nat i <= stop0)
    /\ (forall v, v ∈ values <-> start <= v <= stop0).
Proof.
  intros Hsplit Hstart Hstop Hle. unfold parseRange.
  rewrite Hsplit, Hstart, Hstop. destruct (Z.gtb_spec start stop0); [lia|].
  eexists. split; [done|]. unfold appendUpTo. simpl.
  split; [apply length_seqZ|]. split.
  - intros i v. rewrite lookup_seqZ. lia.
  - intros v. rewrite elem_of_seqZ. lia.
Qed.

End ParserExtras.

(** * Further properties of the scheduler *)

(** ** The clock *)

Lemma allFrom_spec (f : Z -> bool) (n : nat) (z x : Z) :
  allFrom f n z = true -> z <= x < z + Z.of_nat n -> f x = true.
Proof.
  revert z. induction n as [|n IH]; intros z; simpl; [lia|].
  intros [Hz Hrest]%andb_true_iff Hx.
  destruct (Z.eq_dec x z) as [->|]; [done|]. apply (IH (z + 1)); [done|lia].
Qed.

Lemma dateOk_all : allFrom dateOk (Z.to_nat 146097) 0 = true.
Proof. vm_compute. reflexivity. Qed.

(** Whatever the instant, its month is between 1 and 12 and its day
    between 1 and 31. *)
Lemma civil_range (d : Z) :
  1 <= (time.civil d).1.2 <= 12 /\ 1 <= (time.civil d).2 <= 31.
Proof.
  unfold time.civil. cbv zeta. cbn [fst snd].
  pose proof (Z.mod_pos_bound (d + 719468) 146097 ltac:(lia)) as Hb.
  rewrite Z.mod_eq in Hb by lia.
  replace (146097 * ((d + 719468) / 146097))
    with ((d + 719468) / 146097 * 146097) in Hb by lia.
  set (doe := d + 719468 - (d + 719468) / 146097 * 146097) in *.
  assert (Hok : dateOk doe = true).
  { apply (allFrom_spec _ _ _ _ dateOk_all). lia. }
  clearbody doe. unfold dateOk in Hok. cbv zeta in Hok.
  rewrite !andb_true_iff, !Z.leb_le in Hok. lia.
Qed.

Lemma clock_ranges (t : time.Time) :
  0 <= time.Second t <= 59 /\ 0 <= time.Minute t <= 59
  /\ 0 <= time.Hour t <= 23 /\ 1 <= time.Day t <= 31
  /\ 1 <= time.Month t <= 12 /\ 0 <= time.Weekday t <= 6.
Proof.
  unfold time.Second, time.Minute, time.Hour, time.Day, time.Month.
  pose proof (Z.mod_pos_bound (time.abs t) 60).
  pose proof (Z.mod_pos_bound (time.abs t / 60) 60).
  pose proof (Z.mod_pos_bound (time.abs t / 3600) 24).
  pose proof (civil_range (time.days t)).
  pose proof (Weekday_range t). lia.
Qed.

Lemma isTimeMatching_elem (expr : CronExpression) (t : time.Time) :
  isTimeMatching expr t = true <->
  time.Second t ∈ Seconds expr /\ time.Minute t ∈ Minutes expr
  /\ time.Hour t ∈ Hours expr /\ time.Day t ∈ DayOfMonth expr
  /\ time.Month t ∈ Month expr /\ time.Weekday t ∈ DayOfWeek expr.
Proof.
  unfold isTimeMatching. cbv zeta.
  rewrite (weekday_adjust _ (Weekday_range t)).
  rewrite <- !contains_elem_of.
  destruct (contains (Seconds expr) _), (contains (Minutes expr) _),
    (contains (Hours expr) _), (contains (DayOfMonth expr) _),
    (contains (Month expr) _), (contains (DayOfWeek expr) _); simpl;
    intuition congruence.
Qed.

(** ** The next run *)

(** The loop finds the first candidate that matches, or none does. *)
Lemma nextRunLoop_total n expr fromTime k :
  (exists i, 0 <= i < Z.of_nat n
             /\ nextRunLoop n expr (secondAfter fromTime k)
                = secondAfter fromTime (k + i)
             /\ isTimeMatching expr (secondAfter fromTime (k + i)) = true
             /\ forall j, 0 <= j < i ->
                   isTimeMatching expr (secondAfter fromTime (k + j)) = false)
  \/ (nextRunLoop n expr (secondAfter fromTime k) = time.zero
      /\ forall j, 0 <= j < Z.of_nat n ->
            isTimeMatching expr (secondAfter fromTime (k + j)) = false).
Proof.
  revert k. induction n as [|n IH]; intros k; simpl.
  - right. split; [done|]. intros j Hj. lia.
  - destruct (isTimeMatching expr (secondAfter fromTime k)) eqn:Hm.
    + left. exists 0. rewrite Z.add_0_r. repeat split; try done; lia.
    + rewrite Add_Second.
      destruct (IH (k + 1)) as [(i & Hi & Hres & Hmatch & Hnone)|[Hres Hnone]].
      * left. exists (i + 1).
        replace (k + (i + 1)) with (k + 1 + i) by lia.
        repeat split; try done; try lia. intros j Hj.
        destruct (Z.eq_dec j 0) as [->|]; [by rewrite Z.add_0_r|].
        replace (k + j) with (k + 1 + (j - 1)) by lia. apply Hnone. lia.
      * right. split; [done|]. intros j Hj.
        destruct (Z.eq_dec j 0) as [->|]; [by rewrite Z.add_0_r|].
        replace (k + j) with (k + 1 + (j - 1)) by lia. apply Hnone. lia.
Qed.

Lemma nextRunTime_total_aux (expr : CronExpression) (fromTime : time.Time) :
  time.wf fromTime ->
  (exists k, 0 <= k < 1000000
             /\ nextRunTime expr fromTime = secondAfter fromTime k
             /\ isTimeMatching expr (secondAfter fromTime k) = true
             /\ forall j, 0 <= j < k ->
                   isTimeMatching expr (secondAfter fromTime j) = false)
  \/ (nextRunTime expr fromTime = time.zero
      /\ forall k, 0 <= k < 1000000 ->
            isTimeMatching expr (secondAfter fromTime k) = false).
Proof.
  intros Hwf. unfold nextRunTime. cbv zeta.
  rewrite (Add_to_next_second _ Hwf).
  destruct (nextRunLoop_total maxIterations expr fromTime 0)
    as [(i & Hi & Hres & Hmatch & Hnone)|[Hres Hnone]].
  - left. exists i. unfold maxIterations in Hi. rewrite Z.add_0_l in *.
    repeat split; try done; lia.
  - right. split; [done|]. intros k Hk. apply (Hnone k).
    unfold maxIterations. lia.
Qed.

(** X10: the next run is settled by the candidates alone: either some
    candidate among the 1000000 matches, and the first that does is
    returned, or none matches and the zero instant is returned. *)
Theorem nextRunTime_found_or_not (expr : CronExpression)
    (fromTime : time.Time) :
  time.wf fromTime ->
  (exists k, 0 <= k < 1000000
             /\ nextRunTime expr fromTime = secondAfter fromTime k
             /\ isTimeMatching expr (secondAfter fromTime k) = true
             /\ forall j, 0 <= j < k ->
                   isTimeMatching expr (secondAfter fromTime j) = false)
  \/ (nextRunTime expr fromTime = time.zero
      /\ forall k, 0 <= k < 1000000 ->
            isTimeMatching expr (secondAfter fromTime k) = false).
Proof. apply nextRunTime_total_aux. Qed.

Lemma nextRunLoop_never n expr (t : time.Time) :
  (forall t', isTimeMatching expr t' = false) ->
  nextRunLoop n expr t = time.zero.
Proof.
  intros Hnever. revert t. induction n as [|n IH]; intros t; simpl; [done|].
  by rewrite Hnever.
Qed.

(** X11: an expression with an empty set, which the parser can return, is
    due at no instant, and its next run is the zero instant from any
    instant. *)
Theorem empty_set_never_due (expr : CronExpression) :
  Seconds expr = [] \/ Minutes expr = [] \/ Hours expr = []
  \/ DayOfMonth expr = [] \/ Month expr = [] \/ DayOfWeek expr = [] ->
  (forall t, isTimeMatching expr t = false)
  /\ (forall fromTime, nextRunTime expr fromTime = time.zero).
Proof.
  intros Hempty.
  assert (Hnever : forall t, isTimeMatching expr t = false).
  { intros t. destruct (isTimeMatching expr t) eqn:Hm; [|done].
    apply isTimeMatching_elem in Hm as (H1 & H2 & H3 & H4 & H5 & H6).
    destruct Hempty as [E|[E|[E|[E|[E|E]]]]]; rewrite E in *;
      match goal with H : _ ∈ [] |- _ => by apply elem_of_nil in H end. }
  split; [done|]. intros fromTime. by apply nextRunLoop_never.
Qed.

Section StarFacts.
Context {conv : CaseConv}.

(** X12: the expression of six stars parses, is due at every instant, and
    its next run is the whole second that follows. *)
Theorem six_stars_always_due :
  exists expr,
    ParseCronExpression "* * * * * *" = Ok expr
    /\ (forall t, isTimeMatching expr t = true)
    /\ (forall fromTime, time.wf fromTime ->
          nextRunTime expr fromTime = secondAfter fromTime 0).
Proof.
  eexists. split; [|split].
  - unfold ParseCronExpression. cbv zeta.
    change (strings.Fields "* * * * * *")
      with ["*"%string; "*"%string; "*"%string; "*"%string; "*"%string;
            "*"%string].
    cbn [List.length Nat.eqb negb lookup_total list_lookup_total].
    rewrite !parseField_eq. cbn [String.eqb Ascii.eqb Bool.eqb]. reflexivity.
  - intros t. apply isTimeMatching_elem. cbn [Seconds Minutes Hours
      DayOfMonth Month DayOfWeek]. unfold appendUpTo.
    rewrite !app_nil_l, !elem_of_seqZ. pose proof (clock_ranges t). lia.
  - intros fromTime Hwf. unfold nextRunTime. cbv zeta.
    rewrite (Add_to_next_second _ Hwf).
    rewrite (nextRunLoop_first _ _ fromTime 0 0); [done|..].
    + unfold maxIterations. lia.
    + apply isTimeMatching_elem. cbn [Seconds Minutes Hours
        DayOfMonth Month DayOfWeek]. unfold appendUpTo.
      rewrite !app_nil_l, !elem_of_seqZ.
      pose proof (clock_ranges (secondAfter fromTime (0 + 0))). lia.
    + intros j Hj. lia.
Qed.

End StarFacts.

(** ** Sleeping and waking *)

Section LoopFacts.
Context {conv : CaseConv} {Func : Type}.
Implicit Types (c : CronScheduler Func) (job : Job Func).

Lemma selectDue_filter (jobs : list (Job Func)) (now : time.Time)
    (jobsToRun : list (Job Func)) :
  selectDue jobs now jobsToRun
  = jobsToRun
    ++ filter (fun job => isTimeMatching (Schedule job) now = true) jobs.
Proof.
  revert jobsToRun. induction jobs as [|job rest IH]; intros acc; simpl.
  - by rewrite app_nil_r.
  - rewrite filter_cons.
    destruct (isTimeMatching (Schedule job) now) eqn:Hm.
    + rewrite IH. destruct (decide _); [|done]. by rewrite <- app_assoc.
    + rewrite IH. by destruct (decide _).
Qed.

(** X13: [runDueJobs] starts the tasks of exactly the jobs whose schedule
    matches the instant, each job once for each time it is registered, in
    the order of the registry. *)
Theorem runDueJobs_selects c (now : time.Time) :
  runDueJobs c now
  = filter (fun job => isTimeMatching (Schedule job) now = true) (Jobs c)
  /\ runDueJobs c now `sublist_of` Jobs c
  /\ (forall job, job ∈ runDueJobs c now <->
                  job ∈ Jobs c /\ isTimeMatching (Schedule job) now = true).
Proof.
  unfold runDueJobs. rewrite selectDue_filter, app_nil_l.
  split; [done|]. split; [apply sublist_filter|].
  intros job. rewrite list_elem_of_filter. tauto.
Qed.

(** The duration to a candidate. *)
Lemma Sub_secondAfter (now : time.Time) (k : Z) :
  time.wf now -> 0 <= k < 1000000 ->
  time.Sub (secondAfter now k) now = (1 + k) * 1000000000 - time.nsec now.
Proof.
  unfold time.wf, time.Sub, secondAfter. simpl.
  change time.Second_ with 1000000000.
  change time.minDuration with (-9223372036854775808).
  change time.maxDuration with 9223372036854775807.
  intros Hwf Hk.
  destruct (Z.ltb_spec ((time.unixSec now + 1 + k - time.unixSec now)
                        * 1000000000 + (0 - time.nsec now))
                       (-9223372036854775808)); [lia|].
  destruct (Z.gtb_spec ((time.unixSec now + 1 + k - time.unixSec now)
                        * 1000000000 + (0 - time.nsec now))
                       9223372036854775807); lia.
Qed.

(** Adding that duration leads to the candidate. *)
Lemma Add_Sub_secondAfter (now : time.Time) (k : Z) :
  time.wf now -> 0 <= k < 1000000 ->
  time.Add now (time.Sub (secondAfter now k) now) = secondAfter now k.
Proof.
  intros Hwf Hk. rewrite Sub_secondAfter by done.
  unfold time.wf, time.Add, secondAfter in *.
  destruct (Z.eq_dec (time.nsec now) 0) as [H0|H0].
  - rewrite H0, Z.sub_0_r, Z.quot_mul, Z.rem_mul by lia. simpl.
    f_equal; lia.
  - assert (Hq : Z.quot ((1 + k) * 1000000000 - time.nsec now) 1000000000
                 = k).
    { rewrite Z.quot_div_nonneg by lia. symmetry.
      apply (Z.div_unique _ _ _ (1000000000 - time.nsec now)); lia. }
    assert (Hr : Z.rem ((1 + k) * 1000000000 - time.nsec now) 1000000000
                 = 1000000000 - time.nsec now).
    { rewrite Z.rem_mod_nonneg by lia. symmetry.
      apply (Z.mod_unique _ _ k); lia. }
    rewrite Hq, Hr.
    destruct (Z.geb_spec (time.nsec now + (1000000000 - time.nsec now))
                         1000000000); [|lia].
    f_equal; lia.
Qed.


(** X14: the sleep [timeUntilNextJob] computes is always more than nothing
    and at most the year of 365 days: the loop of [Start] never finds the
    next run already due. *)
Theorem timeUntilNextJob_positive c (now : time.Time) :
  time.wf now ->
  0 < timeUntilNextJob c now <= 365 * 24 * 3600 * 1000000000.
Proof.
  intros Hwf. unfold timeUntilNextJob. cbv zeta. fold oneYear.
  destruct (minDurationLoop_min (Jobs c) now oneYear) as (Hle & _ & Hex).
  change oneYear with 31536000000000000 in *.
  split; [|lia].
  destruct Hex as [->|(job & _ & Hnext & ->)]; [lia|].
  destruct (untilNext_bound (Func:=Func) now job Hwf Hnext). lia.
Qed.

Lemma timeUntilNextJob_subset c1 c2 (now : time.Time) :
  (forall job, job ∈ Jobs c1 -> job ∈ Jobs c2) ->
  timeUntilNextJob c2 now <= timeUntilNextJob c1 now.
Proof.
  intros Hsub. unfold timeUntilNextJob. cbv zeta. fold oneYear.
  destruct (minDurationLoop_min (Jobs c1) now oneYear) as (_ & _ & Hex).
  destruct (minDurationLoop_min (Jobs c2) now oneYear) as (Hle & Hall & _).
  destruct Hex as [->|(job & Hin & Hnext & ->)]; [done|].
  apply Hall; [by apply Hsub|done].
Qed.

(** X15: the sleep depends on the jobs only as a set and shrinks as the set
    grows: a scheduler that has all the jobs of another never sleeps
    longer, so [AddJob] never lengthens the sleep and [RemoveJob] never
    shortens it. *)
Theorem timeUntilNextJob_antitone c (now : time.Time) :
  (forall c', (forall job, job ∈ Jobs c -> job ∈ Jobs c') ->
              timeUntilNextJob c' now <= timeUntilNextJob c now)
  /\ (forall expr task,
        timeUntilNextJob (AddJob c expr task).1 now
        <= timeUntilNextJob c now)
  /\ (forall index,
        timeUntilNextJob c now
        <= timeUntilNextJob (RemoveJob c index).1 now).
Proof.
  split; [|split].
  - intros c'. apply timeUntilNextJob_subset.
  - intros expr task. apply timeUntilNextJob_subset. intros job Hin.
    unfold AddJob. destruct (ParseCronExpression expr); [|done].
    simpl. apply elem_of_app. by left.
  - intros index. apply timeUntilNextJob_subset. intros job.
    unfold RemoveJob.
    destruct ((index <? 0) || (index >=? Z.of_nat (List.length (Jobs c))));
      [done|].
    simpl. rewrite elem_of_app.
    intros [Hin|Hin]; [by eapply subseteq_take|by eapply subseteq_drop].
Qed.


(** X17: when the sleep is shorter than the year, a job is due at the
    instant the sleep ends: [runDueJobs] then has a task to start. *)
Theorem job_due_at_wake_up c (now : time.Time) :
  time.wf now ->
  timeUntilNextJob c now < 365 * 24 * 3600 * 1000000000 ->
  exists job,
    job ∈ Jobs c
    /\ job ∈ runDueJobs c (time.Add now (timeUntilNextJob c now)).
Proof.
  intros Hwf Hlt. unfold timeUntilNextJob in *. cbv zeta in *.
  destruct (minDurationLoop_min (Jobs c) now (time.Hour_ * 24 * 365))
    as (_ & _ & Hex).
  destruct Hex as [Heq|(job & Hjob & Hnext & Heq)].
  - rewrite Heq in Hlt. change (time.Hour_ * 24 * 365)
      with 31536000000000000 in Hlt. lia.
  - exists job. split; [done|]. rewrite Heq.
    unfold runDueJobs. rewrite selectDue_filter, app_nil_l.
    apply list_elem_of_filter. split; [|done].
    unfold hasNext, untilNext in *.
    destruct (nextRunTime_total_aux (Schedule job) now Hwf)
      as [(i & Hi & Hres & Hmatch & _)|[Hres _]].
    + rewrite Hres, Add_Sub_secondAfter by done. done.
    + by rewrite Hres in Hnext.
Qed.

End LoopFacts.

(** ** Starting, stopping, adding, removing and listing *)

Section HandleFacts.
Context {conv : CaseConv} {Func : Type}.
Implicit Types (c : CronScheduler Func) (h : Handle Func).

Lemma call_consistent h (op : Call Func) :
  consistent h -> exists h', call h op = Some h' /\ consistent h'.
Proof.
  intros Hc. destruct op as [expr task|index| |]; simpl.
  - eexists. split; [done|]. unfold consistent, AddJob in *. simpl.
    by destruct (ParseCronExpression expr).
  - eexists. split; [done|]. unfold consistent, RemoveJob in *. simpl.
    by destruct ((index <? 0) || _).
  - eexists. split; [done|]. unfold consistent, Start in *.
    destruct Hc as [[Hr Hs]|[Hr Hs]]; rewrite Hr; [by left|].
    left. simpl. by rewrite Hs.
  - unfold Stop, consistent in *.
    destruct Hc as [[Hr Hs]|[Hr Hs]]; rewrite Hr.
    + rewrite Hs. eexists. split; [done|]. by right.
    + eexists. split; [done|]. by right.
Qed.

(** X18: whatever calls of [AddJob], [RemoveJob], [Start] and [Stop] are
    made on a new scheduler, one after the other, none panics: [Stop] never
    closes a stop channel that is [nil] or closed. After them the scheduler
    runs with an open stop channel or is stopped with none. *)
Theorem calls_never_panic (ops : list (Call Func)) :
  exists h, calls NewHandle ops = Some h /\ consistent h.
Proof.
  assert (Hgen : forall h, consistent h ->
                   exists h', calls h ops = Some h' /\ consistent h').
  { induction ops as [|op rest IH]; intros h Hc; simpl; [by eexists|].
    destruct (call_consistent h op Hc) as (h' & -> & Hc'). by apply IH. }
  apply Hgen. by right.
Qed.

(** X19: [Start] on a running scheduler and [Stop] on a stopped one change
    nothing; a second [Start] or a second [Stop] changes nothing more; and
    [Stop] after [Start] gives a stopped scheduler with no channel back as
    it was. *)
Theorem Start_Stop_idempotent h :
  (running (sched h) = true -> Start h = h)
  /\ (running (sched h) = false -> Stop h = Some h)
  /\ Start (Start h) = Start h
  /\ (forall h', Stop h = Some h' -> Stop h' = Some h')
  /\ (running (sched h) = false -> stop h = chanNil ->
      Stop (Start h) = Some h).
Proof.
  destruct h as [[jobs run] ch]. unfold Start, Stop. simpl.
  repeat split.
  - by intros ->.
  - by intros ->.
  - by destruct run.
  - intros h'. destruct run; [|by intros [= <-]].
    destruct ch; try done. by intros [= <-].
  - by intros -> ->.
Qed.

(** X20: [RemoveJob] at the index of the job that a successful [AddJob]
    has just added undoes the [AddJob]: the scheduler is as it was. *)
Theorem AddJob_RemoveJob c (expr : string) (task : Func)
    (c' : CronScheduler Func) :
  AddJob c expr task = (c', None) ->
  RemoveJob c' (Z.of_nat (List.length (Jobs c))) = (c, None).
Proof.
  unfold AddJob. destruct (ParseCronExpression expr) as [schedule|]; [|done].
  intros [= <-]. unfold RemoveJob. simpl. rewrite length_app. simpl.
  destruct (Z.ltb_spec (Z.of_nat (List.length (Jobs c))) 0); [lia|].
  destruct (Z.geb_spec (Z.of_nat (List.length (Jobs c)))
              (Z.of_nat (List.length (Jobs c) + 1))); [lia|]. simpl.
  rewrite Nat2Z.id.
  replace (Z.to_nat (Z.of_nat (List.length (Jobs c)) + 1))
    with (S (List.length (Jobs c))) by lia.
  rewrite take_app_length, drop_ge, app_nil_r
    by (rewrite length_app; simpl; lia).
  by destruct c.
Qed.

Lemma listFrom_spec (jobs : list (Job Func)) (i : nat)
    (jobList : list string) :
  listFrom jobs i jobList = jobList ++ imap (fun j => jobLine (i + j)) jobs.
Proof.
  revert i jobList. induction jobs as [|job rest IH]; intros i acc; simpl.
  - by rewrite app_nil_r.
  - rewrite IH, <- app_assoc. simpl. rewrite Nat.add_0_r. do 2 f_equal.
    apply imap_ext. intros j x _. simpl. f_equal. lia.
Qed.

(** X21: [ListJobs] gives one line for each job, in the order of the
    registry: the line of the job at index [i] is [Job i: ] followed by its
    schedule; the registry is not changed by it, so the list has as many
    lines as there are jobs. *)
Theorem ListJobs_lines c :
  List.length (ListJobs c) = List.length (Jobs c)
  /\ (forall (i : nat) job,
        Jobs c !! i = Some job -> ListJobs c !! i = Some (jobLine i job))
  /\ (forall i : nat, (List.length (Jobs c) <= i)%nat ->
                      ListJobs c !! i = None).
Proof.
  unfold ListJobs. rewrite listFrom_spec, app_nil_l.
  split; [apply length_imap|]. split.
  - intros i job Hi. rewrite list_lookup_imap, Hi. done.
  - intros i Hi. apply lookup_ge_None. by rewrite length_imap.
Qed.

End HandleFacts.

(** * The further properties at concrete inputs *)

(** The minutes and the weekday of [* 60 * * * Foo] are both wrong; the
    error is that of the minutes. *)
Lemma ParseCronExpression_first_error_witness :
  @ParseCronExpression asciiCase "* 60 * * * Foo" = Err (ErrOutOfRange 60)
  /\ @parseNth asciiCase (strings.Fields "* 60 * * * Foo") 5
     = Err (ErrInvalidValue "Foo").
Proof.
  split; [|vm_compute; reflexivity].
  apply (@ParseCronExpression_first_error asciiCase "* 60 * * * Foo" 1).
  - vm_compute. reflexivity.
  - intros j Hj. assert (j = 0%nat) as -> by lia. vm_compute. reflexivity.
  - vm_compute. reflexivity.
Defined.

(** Every fifteenth minute. *)
Lemma parseField_star_step_witness :
  exists values,
    @parseField asciiCase "*/15" 0 59 ∅ = Ok values
    /\ forall v, v ∈ values <-> 0 <= v <= 59 /\ (v - 0) mod 15 = 0.
Proof.
  apply (@parseField_star_step asciiCase "15" 15 0 59 ∅).
  - reflexivity.
  - reflexivity.
  - lia.
Defined.

Lemma parseField_step_one_witness :
  @parseField asciiCase "1-5/1" 0 59 ∅ = @parseField asciiCase "1-5" 0 59 ∅.
Proof. apply (@parseField_step_one asciiCase "1-5" 0 59 ∅). reflexivity. Defined.

Lemma parseField_many_slashes_witness :
  @parseField asciiCase "1/2/3" 0 59 ∅ = Err (ErrInvalidStepField "1/2/3").
Proof.
  apply (@parseField_many_slashes asciiCase "1/2/3" 0 59 ∅).
  vm_compute. lia.
Defined.

(** A list of a value and a range. *)
Lemma parseField_list_witness :
  @parseField asciiCase "1,3-5" 0 59 ∅ = Ok [1; 3; 4; 5]
  /\ exists sets,
       Forall2 (fun part vs => @parsePart asciiCase part 0 59 ∅ = Ok vs)
               (strings.Split "1,3-5" ",") sets
       /\ [1; 3; 4; 5] = List.concat sets.
Proof.
  assert (H : @parseField asciiCase "1,3-5" 0 59 ∅ = Ok [1; 3; 4; 5])
    by (vm_compute; reflexivity).
  split; [exact H|].
  apply (proj1 (@parseField_list asciiCase "1,3-5" 0 59 ∅ [1; 3; 4; 5]
                  ltac:(discriminate) eq_refl)).
  exact H.
Defined.

(** A comma at the end leaves an empty item. *)
Lemma parseField_bad_item_witness :
  isOk (@parseField asciiCase "1," 0 59 ∅) = false
  /\ isOk (@parseField asciiCase "*,5" 0 59 ∅) = false.
Proof.
  split.
  - apply (@parseField_bad_item asciiCase "1," "" 0 59 ∅).
    + discriminate.
    + reflexivity.
    + simpl. apply list_elem_of_further, list_elem_of_here.
    + reflexivity.
    + reflexivity.
    + intros num Hnum. discriminate Hnum.
  - apply (@parseField_bad_item asciiCase "*,5" "*" 0 59 ∅).
    + discriminate.
    + reflexivity.
    + simpl. apply list_elem_of_here.
    + reflexivity.
    + reflexivity.
    + intros num Hnum. discriminate Hnum.
Defined.

Lemma parseRange_nonempty_NoDup_witness :
  @parseRange asciiCase "Fri-Mon" 0 6 dayNameToNumber = Ok [5; 6; 0; 1]
  /\ [5; 6; 0; 1] <> [] /\ NoDup [5; 6; 0; 1].
Proof.
  assert (H : @parseRange asciiCase "Fri-Mon" 0 6 dayNameToNumber
              = Ok [5; 6; 0; 1]) by (vm_compute; reflexivity).
  split; [exact H|].
  exact (@parseRange_nonempty_NoDup asciiCase "Fri-Mon" 0 6 dayNameToNumber
           [5; 6; 0; 1] dayNameToNumber_within H).
Defined.

(** Monday to Friday. *)
Lemma parseRange_ascending_witness :
  exists values,
    @parseRange asciiCase "Mon-Fri" 0 6 dayNameToNumber = Ok values
    /\ List.length values = 5%nat
    /\ (forall (i : nat) v, values !! i = Some v <->
                            v = 1 + Z.of_nat i /\ 1 + Z.of_nat i <= 5)
    /\ (forall v, v ∈ values <-> 1 <= v <= 5).
Proof.
  apply (@parseRange_ascending asciiCase "Mon-Fri" "Mon" "Fri" 0 6
           dayNameToNumber 1 5).
  - reflexivity.
  - vm_compute. reflexivity.
  - vm_compute. reflexivity.
  - lia.
Defined.

(** The noon of every day, asked for at 14:15:30: found at the candidate
    of index 78269 or not found at all. *)
Lemma nextRunTime_found_or_not_witness :
  let noon := {| Seconds := [0]; Minutes := [0]; Hours := [12];
                 DayOfMonth := seqZ 1 31; Month := seqZ 1 12;
                 DayOfWeek := seqZ 0 7 |} in
  let now := time.Date 2023 1 1 14 15 30 0 in
  time.wf now
  /\ ((exists k, 0 <= k < 1000000
                 /\ nextRunTime noon now = secondAfter now k
                 /\ isTimeMatching noon (secondAfter now k) = true
                 /\ forall j, 0 <= j < k ->
                       isTimeMatching noon (secondAfter now j) = false)
      \/ (nextRunTime noon now = time.zero
          /\ forall k, 0 <= k < 1000000 ->
                isTimeMatching noon (secondAfter now k) = false)).
Proof.
  intros noon now.
  assert (Hwf : time.wf now) by (unfold time.wf; simpl; lia).
  split; [exact Hwf|]. exact (nextRunTime_found_or_not noon now Hwf).
Defined.

(** The seconds of [5/7] are the empty set. *)
Lemma empty_set_never_due_witness :
  exists expr,
    @ParseCronExpression asciiCase "5/7 * * * * *" = Ok expr
    /\ Seconds expr = []
    /\ (forall t, isTimeMatching expr t = false)
    /\ (forall fromTime, nextRunTime expr fromTime = time.zero).
Proof.
  eexists. split; [vm_compute; reflexivity|]. split; [reflexivity|].
  apply empty_set_never_due. left. reflexivity.
Defined.

Lemma six_stars_always_due_witness :
  exists expr,
    @ParseCronExpression asciiCase "* * * * * *" = Ok expr
    /\ isTimeMatching expr (time.Date 2024 2 29 23 59 59 0) = true
    /\ nextRunTime expr (time.Date 2024 2 29 23 59 59 0)
       = time.Date 2024 3 1 0 0 0 0.
Proof.
  destruct (@six_stars_always_due asciiCase) as (expr & Hparse & Hdue & Hnext).
  exists expr. split; [exact Hparse|]. split; [apply Hdue|].
  rewrite Hnext; [reflexivity|]. unfold time.wf. simpl. lia.
Defined.

Lemma timeUntilNextJob_positive_witness :
  time.wf (time.Date 2023 1 1 14 15 30 500)
  /\ 0 < timeUntilNextJob (@NewCronScheduler unit)
                          (time.Date 2023 1 1 14 15 30 500)
      <= 365 * 24 * 3600 * 1000000000.
Proof.
  assert (Hwf : time.wf (time.Date 2023 1 1 14 15 30 500))
    by (unfold time.wf; simpl; lia).
  split; [exact Hwf|].
  exact (timeUntilNextJob_positive (@NewCronScheduler unit) _ Hwf).
Defined.

Lemma timeUntilNextJob_antitone_witness :
  let now := time.Date 2023 1 1 14 15 30 500 in
  timeUntilNextJob
    (@AddJob asciiCase unit NewCronScheduler "* * * * * *" tt).1 now
  <= timeUntilNextJob (@NewCronScheduler unit) now.
Proof.
  intros now.
  destruct (@timeUntilNextJob_antitone asciiCase unit NewCronScheduler now)
    as (_ & Hadd & _).
  apply Hadd.
Defined.


(** A job of six stars is due when the sleep ends. *)
Lemma job_due_at_wake_up_witness :
  let now := time.Date 2023 1 1 14 15 30 500 in
  let every := {| Schedule := {| Seconds := seqZ 0 60; Minutes := seqZ 0 60;
                                  Hours := seqZ 0 24; DayOfMonth := seqZ 1 31;
                                  Month := seqZ 1 12; DayOfWeek := seqZ 0 7 |};
                  Task := tt |} in
  let c := {| Jobs := [every]; running := true |} in
  time.wf now
  /\ timeUntilNextJob c now < 365 * 24 * 3600 * 1000000000
  /\ exists job,
       job ∈ Jobs c
       /\ job ∈ runDueJobs c (time.Add now (timeUntilNextJob c now)).
Proof.
  intros now every c.
  assert (Hwf : time.wf now) by (unfold time.wf; simpl; lia).
  assert (Hlt : timeUntilNextJob c now < 365 * 24 * 3600 * 1000000000)
    by (vm_compute; reflexivity).
  split; [exact Hwf|]. split; [exact Hlt|].
  exact (job_due_at_wake_up c now Hwf Hlt).
Defined.

Lemma Start_Stop_idempotent_witness :
  Stop (Start (@NewHandle unit)) = Some NewHandle
  /\ Stop (@NewHandle unit) = Some NewHandle.
Proof.
  destruct (Start_Stop_idempotent (@NewHandle unit))
    as (_ & Hstopped & _ & _ & Hround).
  split; [apply Hround; reflexivity|apply Hstopped; reflexivity].
Defined.

Lemma AddJob_RemoveJob_witness :
  exists c',
    @AddJob asciiCase unit NewCronScheduler "* * * * * *" tt = (c', None)
    /\ List.length (Jobs c') = 1%nat
    /\ RemoveJob c' 0 = (NewCronScheduler, None).
Proof.
  eexists. split; [vm_compute; reflexivity|]. split; [reflexivity|].
  apply (@AddJob_RemoveJob asciiCase unit NewCronScheduler "* * * * * *" tt).
  vm_compute. reflexivity.
Defined.

Example ListJobs_example :
  match @ParseCronExpression asciiCase "30 15 14 1 1 *" with
  | Ok e =>
      ListJobs {| Jobs := [{| Schedule := e; Task := tt |};
                           {| Schedule := e; Task := tt |}];
                  running := false |}
      = ["Job 0: &{[30] [15] [14] [1] [1] [0 1 2 3 4 5 6]}"%string;
         "Job 1: &{[30] [15] [14] [1] [1] [0 1 2 3 4 5 6]}"%string]
  | Err _ => False
  end.
Proof. vm_compute. reflexivity. Qed.
